(** * YamlDatabase: the generic YAML database loader of src/common/database.cpp

    The loader is written against yaml-cpp.  The first module below is a
    model of the part of that library the loader calls (nodes, the const
    subscript, marks, conversions and the exceptions they raise); everything
    after it is a transcription of database.cpp. *)

From Stdlib Require Import String ZArith List Bool Lia.
Import ListNotations.
Open Scope string_scope.
Open Scope Z_scope.
Open Scope list_scope.
Set Warnings "-register-all".

(** ** Exceptions and results *)

(** The yaml-cpp exception classes that node operations raise.  They are
    siblings: each derives from [YAML::RepresentationException], none from
    another, so a handler for one does not handle the others. *)
Inductive Exception : Type :=
| InvalidNode
| BadSubscript
| BadConversion.

(** Outcome of a C++ call: it returns a value or leaves by an exception. *)
Inductive Res (A : Type) : Type :=
| Ok (a : A)
| Throw (e : Exception).
Arguments Ok {A} a.
Arguments Throw {A} e.

Module YAML.

(** A parsed document tree.  Every node carries the 0-based line of its
    mark.  Map keys are nodes themselves, as in YAML. *)
Inductive Tree : Type :=
| Null (line : Z)
| Scalar (line : Z) (text : string)
| Sequence (line : Z) (items : list Tree)
| Map (line : Z) (entries : list (Tree * Tree)).

(** A [YAML::Node] handle: either a valid handle on a tree, or the
    invalid ("zombie") handle that a failed const lookup returns. *)
Inductive Node : Type :=
| Valid (t : Tree)
| Zombie.

Definition line_of (t : Tree) : Z :=
  match t with
  | Null l | Scalar l _ | Sequence l _ | Map l _ => l
  end.

(** [Node::IsDefined], also the handle's conversion to bool. *)
Definition IsDefined (n : Node) : bool :=
  match n with
  | Valid _ => true
  | Zombie => false
  end.

(** [Node::Mark().line]: raises InvalidNode on an invalid handle. *)
Definition Mark_line (n : Node) : Res Z :=
  match n with
  | Valid t => Ok (line_of t)
  | Zombie => Throw InvalidNode
  end.

(** A map key equals a string key when it is a scalar with that text. *)
Definition key_equals (k : Tree) (name : string) : bool :=
  match k with
  | Scalar _ text => String.eqb text name
  | _ => false
  end.

Fixpoint find_key (entries : list (Tree * Tree)) (name : string) : option Tree :=
  match entries with
  | [] => None
  | (k, v) :: rest => if key_equals k name then Some v else find_key rest name
  end.

(** The const [operator[]] with a string key.  An invalid handle raises
    InvalidNode; a scalar cannot be subscripted and raises BadSubscript;
    a null node or a sequence has no string keys; a map is searched in
    order.  A lookup that finds nothing returns the invalid handle. *)
Definition subscript (n : Node) (name : string) : Res Node :=
  match n with
  | Zombie => Throw InvalidNode
  | Valid (Scalar _ _) => Throw BadSubscript
  | Valid (Null _) => Ok Zombie
  | Valid (Sequence _ _) => Ok Zombie
  | Valid (Map _ entries) =>
      match find_key entries name with
      | Some v => Ok (Valid v)
      | None => Ok Zombie
      end
  end.

(** [Node::as<R>()] for a conversion [decode] (yaml-cpp's [convert<R>]):
    InvalidNode on an invalid handle, BadConversion when decoding fails. *)
Definition as_ {R : Type} (decode : Tree -> option R) (n : Node) : Res R :=
  match n with
  | Zombie => Throw InvalidNode
  | Valid t =>
      match decode t with
      | Some v => Ok v
      | None => Throw BadConversion
      end
  end.

(** The handles a range-for over a node visits.  Sequence items are
    visited as valid handles; each map entry is visited as a key/value
    pair whose own handle is invalid; anything else is empty. *)
Definition iterate (n : Node) : list Node :=
  match n with
  | Valid (Sequence _ items) => map Valid items
  | Valid (Map _ entries) => map (fun _ => Zombie) entries
  | _ => []
  end.

End YAML.
Import YAML.

(** ** The console (showmsg) *)

Inductive Severity : Type := Status | Warning | Error | FatalError.

(** One constructor per format string of database.cpp, with its arguments. *)
Inductive Message : Type :=
| NoHeader                                   (* No database header was found. *)
| NoType                                     (* No database type was found. *)
| TypeMismatch (expected found : string)     (* Database type mismatch: %s != %s. *)
| InvalidVersionType (type : string)         (* Invalid header version type for %s database. *)
| VersionTooNew (v maximum : Z)              (* ... version %hu is not supported by your server. Maximum version is: %hu *)
| VersionOutdated (v current : Z)            (* ... version %hu is outdated and should be updated. Current version is: %hu *)
| VersionTooOld (v minimum : Z)              (* ... version %hu is not supported anymore by your server. Minimum version is: %hu *)
| ReadFailed (type path : string)            (* Failed to read %s database file from '%s'. *)
| ReadFailedAt (msg : string) (line column : Z)   (* %s (Line %d: Column %d) *)
| VerifyFailed (type path : string)          (* Failed to verify compatibility with %s database file from '%s'. *)
| DoneReading (count : Z) (path : string)    (* Done reading '%d' entries in '%s' *)
| NoOutputPointer                            (* asType: No output pointer was given. *)
| UnparsableUsingDefault (name : string) (line : Z)  (* Unable to parse %s in line %d. Using default value... *)
| Unparsable (name : string) (line : Z)      (* Unable to parse %s in line %d. *)
| MissingNode (name : string) (line : Z).    (* Missing node %s in line %d. *)

Definition Diag : Type := (Severity * Message)%type.

Definition ShowStatus (m : Message) : Diag := (Status, m).
Definition ShowWarning (m : Message) : Diag := (Warning, m).
Definition ShowError (m : Message) : Diag := (Error, m).
Definition ShowFatalError (m : Message) : Diag := (FatalError, m).

(** ** nodeExists *)

(** try { return node[name] ? true : false; } catch (InvalidNode) { return false; }
    Only InvalidNode is handled; any other exception leaves the function. *)
Definition nodeExists (node : Node) (name : string) : Res bool :=
  match subscript node name with
  | Ok sub => Ok (IsDefined sub)
  | Throw InvalidNode => Ok false
  | Throw e => Throw e
  end.

(** ** asType *)

(** An [R*] argument.  asType only tests it against nullptr and stores
    through it; the store is reported in the [written] field below. *)
Inductive pointer : Type := nullptr | target.

(** What one call of a typed accessor does: how it leaves, the value it
    stored through [out] (if it stored), and the lines it showed. *)
Record Access (R : Type) : Type := mkAccess {
  returned : Res bool;
  written : option R;
  shown : list Diag
}.
Arguments mkAccess {R}.
Arguments returned {R}.
Arguments written {R}.
Arguments shown {R}.

Definition raise {R : Type} (e : Exception) : Access R :=
  mkAccess (Throw e) None [].

Definition asType {R : Type} (decode : Tree -> option R)
    (node : Node) (name : string) (out : pointer) (defaultValue : option R) : Access R :=
  match out with
  | nullptr => mkAccess (Ok false) None [ShowFatalError NoOutputPointer]
  | target =>
      match nodeExists node name with
      | Throw e => raise e
      | Ok true =>
          match subscript node name with
          | Throw e => raise e
          | Ok dataNode =>
              match as_ decode dataNode with
              | Ok value => mkAccess (Ok true) (Some value) []
              | Throw BadConversion =>
                  match defaultValue with
                  | Some d =>
                      match Mark_line dataNode with
                      | Throw e => raise e
                      | Ok line =>
                          mkAccess (Ok true) (Some d)
                            [ShowWarning (UnparsableUsingDefault name (line + 1))]
                      end
                  | None =>
                      match Mark_line dataNode with
                      | Throw e => raise e
                      | Ok line =>
                          mkAccess (Ok false) None [ShowError (Unparsable name (line + 1))]
                      end
                  end
              | Throw e => raise e
              end
          end
      | Ok false =>
          match defaultValue with
          | Some d => mkAccess (Ok true) (Some d) []
          | None =>
              match Mark_line node with
              | Throw e => raise e
              | Ok line => mkAccess (Ok false) None [ShowError (MissingNode name (line + 1))]
              end
          end
      end
  end.

(** ** Calls that show lines and may throw *)

(** A computation that shows console lines and returns or throws.  Lines
    shown before a throw stay shown. *)
Definition Eff (A : Type) : Type := (Res A * list Diag)%type.

Definition ret {A : Type} (a : A) : Eff A := (Ok a, []).

Definition bind {A B : Type} (m : Eff A) (k : A -> Eff B) : Eff B :=
  match m with
  | (Ok a, l) => let (r, l') := k a in (r, l ++ l')
  | (Throw e, l) => (Throw e, l)
  end.

Definition call {A : Type} (r : Res A) : Eff A := (r, []).

Definition show (d : Diag) : Eff unit := (Ok tt, [d]).

(** Calling a typed accessor on a local variable: the caller sees the
    returned flag and the variable's new content, if it was stored. *)
Definition access {R : Type} (a : Access R) : Eff (bool * option R) :=
  (match returned a with
   | Ok b => Ok (b, written a)
   | Throw e => Throw e
   end, shown a).

Notation "x <- m ;; k" := (bind m (fun x => k))
  (at level 61, m at next level, right associativity).
Notation "m ;;; k" := (bind m (fun _ => k))
  (at level 61, right associativity).

(** ** C strings *)

(** [std::string::c_str()] as its receiver reads it: the characters before
    the first NUL. *)
Fixpoint c_str (s : string) : string :=
  match s with
  | EmptyString => EmptyString
  | String c rest =>
      if Ascii.eqb c Ascii.zero then EmptyString else String c (c_str rest)
  end.

(** ** The database object and its host *)

(** The fixed-width integer types.  The loader compares and prints them
    and does no arithmetic on them, so no wrap-around arises here. *)
Definition int16 : Type := Z.
Definition uint16 : Type := Z.
Definition int32 : Type := Z.
Definition uint32 : Type := Z.
Definition int64 : Type := Z.
Definition uint64 : Type := Z.

Record YamlDatabase : Type := mkYamlDatabase {
  type : string;
  version : uint16;
  minimumVersion : uint16;
  root : Node
}.

(** [YAML::LoadFile]: the parsed document, or the message, line and column
    of the [YAML::Exception] it raised. *)
Inductive LoadResult : Type :=
| Loaded (t : Tree)
| Failed (msg : string) (line column : Z).

(** enum e_yamldb_location.  [UNLISTED] is a value of the enum type that is
    none of its three enumerators: the one the switch of getLocations
    falls through on. *)
Inductive e_yamldb_location : Type := NORMAL_DB | SPLIT_DB | CONF_DB | UNLISTED.

(** What happened during a run, in order: lines shown on the console and,
    for the statements about the driver loop, each call of [load] and each
    call of the entry callback with the flag it returned. *)
Inductive Event : Type :=
| Shown (d : Diag)
| LoadCalled (path : string)
| FuncCalled (node : Node) (file : string) (result : bool).

(** The object, what has happened so far, and the state the entry
    callback captures and updates. *)
Record World (U : Type) : Type := mkWorld {
  self : YamlDatabase;
  history : list Event;
  user : U
}.
Arguments mkWorld {U}.
Arguments self {U}.
Arguments history {U}.
Arguments user {U}.

Definition M (U A : Type) : Type := World U -> Res A * World U.

Definition record {U : Type} (evs : list Event) (w : World U) : World U :=
  mkWorld (self w) (history w ++ evs) (user w).

Definition print {U : Type} (ds : list Diag) (w : World U) : World U :=
  record (map Shown ds) w.

Definition set_root {U : Type} (rootNode : Node) (w : World U) : World U :=
  mkWorld
    (mkYamlDatabase (type (self w)) (version (self w)) (minimumVersion (self w)) rootNode)
    (history w) (user w).

Definition set_user {U : Type} (u : U) (w : World U) : World U :=
  mkWorld (self w) (history w) u.

(** ** Sample documents

    Concrete conversions, documents and a file system, used to run the
    definitions below on explicit inputs. *)
Module Sample.

Fixpoint digits (s : string) (acc : Z) : option Z :=
  match s with
  | EmptyString => Some acc
  | String c rest =>
      let d := Z.of_nat (Ascii.nat_of_ascii c) - 48 in
      if (0 <=? d) && (d <=? 9) then digits rest (10 * acc + d) else None
  end.

Definition number (t : Tree) : option Z :=
  match t with
  | Scalar _ EmptyString => None
  | Scalar _ text => digits text 0
  | _ => None
  end.

Definition as_uint16 (t : Tree) : option Z :=
  match number t with
  | Some v => if v <=? 65535 then Some v else None
  | None => None
  end.

Definition as_string (t : Tree) : option string :=
  match t with
  | Scalar _ text => Some text
  | _ => None
  end.

Definition as_bool (t : Tree) : option bool :=
  match t with
  | Scalar _ "true" => Some true
  | Scalar _ "false" => Some false
  | _ => None
  end.

Definition header (ty ver : string) : Tree * Tree :=
  (Scalar 0 "Header",
   Map 1 [(Scalar 1 "Type", Scalar 1 ty); (Scalar 2 "Version", Scalar 2 ver)]).

Definition entry (line : Z) (id : string) : Tree :=
  Map line [(Scalar line "Id", Scalar line id)].

(** Header {Type: ITEM_DB, Version: [ver]} and a body of three entries,
    the second of which carries an Id that is not a number. *)
Definition document (ver : string) : Tree :=
  Map 0 [header "ITEM_DB" ver;
         (Scalar 3 "Body", Sequence 4 [entry 4 "501"; entry 5 "potion"; entry 6 "502"])].

(** Header: 5 -- the header is a scalar where a map is expected. *)
Definition scalar_header : Tree :=
  Map 0 [(Scalar 0 "Header", Scalar 0 "5")].

(** The overlay of the usable items: one more entry. *)
Definition overlay : Tree :=
  Map 0 [header "ITEM_DB" "3"; (Scalar 3 "Body", Sequence 4 [entry 4 "503"])].

Definition item_db : YamlDatabase := mkYamlDatabase "ITEM_DB" 3 2 Zombie.

(** item_db.yml has a base file and no import file; item_db_usable.yml
    has an outdated base file and an import file. *)
Definition LoadFile (path : string) : LoadResult :=
  if String.eqb path "db/item_db.yml" then Loaded (document "3")
  else if String.eqb path "db/item_db_usable.yml" then Loaded (document "2")
  else if String.eqb path "db/import/item_db_usable.yml" then Loaded overlay
  else Failed "bad file" (-1) (-1).

(** An entry callback that accepts the entries whose Id is a number and
    collects the accepted ids. *)
Definition collect (node : Node) (file : string) (ids : list Z) : bool * list Z :=
  match subscript node "Id" with
  | Ok (Valid t) =>
      match number t with
      | Some id => (true, ids ++ [id])
      | None => (false, ids)
      end
  | _ => (false, ids)
  end.

(** Before anything is loaded. *)
Definition world0 : World (list Z) := mkWorld item_db [] [].

(** Documents the header check refuses or cannot read. *)
Definition empty_document : Tree := Null 0.

Definition headless : Tree :=
  Map 0 [(Scalar 0 "Body", Sequence 1 [entry 1 "501"])].

Definition typeless : Tree :=
  Map 0 [(Scalar 0 "Header", Map 1 [(Scalar 1 "Version", Scalar 1 "3")])].

Definition mob_document : Tree :=
  Map 0 [(Scalar 0 "Header",
          Map 1 [(Scalar 1 "Type", Scalar 1 "MOB_DB");
                 (Scalar 2 "Version", Scalar 2 "many")])].

Definition versionless : Tree :=
  Map 0 [(Scalar 0 "Header", Map 1 [(Scalar 1 "Type", Scalar 1 "ITEM_DB")])].

Definition listed_type : Tree :=
  Map 0 [(Scalar 0 "Header",
          Map 1 [(Scalar 1 "Type", Sequence 1 [Scalar 1 "ITEM_DB"]);
                 (Scalar 2 "Version", Scalar 2 "3")])].

(** A current header, and a Body that is a map instead of a sequence. *)
Definition keyed_body : Tree :=
  Map 0 [header "ITEM_DB" "3";
         (Scalar 3 "Body", Map 4 [(Scalar 4 "501", entry 4 "501")])].

(** A file system with one more file, whose Body is a map. *)
Definition LoadFile_keyed (path : string) : LoadResult :=
  if String.eqb path "db/item_keyed.yml" then Loaded keyed_body
  else LoadFile path.

(** A file system with one more file, whose Header is a scalar. *)
Definition LoadFile_scalar (path : string) : LoadResult :=
  if String.eqb path "db/item_scalar.yml" then Loaded scalar_header
  else LoadFile path.

(** The item database with its minimum version above its version. *)
Definition item_db_minimum_5 : YamlDatabase := mkYamlDatabase "ITEM_DB" 3 5 Zombie.

(** A file name with a NUL character in it: item_db.yml, NUL, .bak. *)
Definition nul_name : string := ("item_db.yml" ++ String Ascii.zero ".bak")%string.

(** A current document whose Body has a null entry ([- ~]) before an
    ordinary one. *)
Definition null_entry : Tree :=
  Map 0 [header "ITEM_DB" "3";
         (Scalar 3 "Body", Sequence 4 [Null 4; entry 5 "501"])].

(** A file system with one more dataset, whose base file has a null
    entry and whose import file is the overlay. *)
Definition LoadFile_null (path : string) : LoadResult :=
  if String.eqb path "db/item_null.yml" then Loaded null_entry
  else if String.eqb path "db/import/item_null.yml" then Loaded overlay
  else LoadFile path.

(** The world after something else has been loaded and shown. *)
Definition world1 : World (list Z) :=
  mkWorld (mkYamlDatabase "ITEM_DB" 3 2 (Valid overlay))
    [LoadCalled "db/import/item_db_usable.yml"] [503].

End Sample.

(** ** database.cpp *)

Section Database.

(** Process-wide path configuration ([db_path], [conf_path]) and the
    [DBIMPORT] and [DBPATH] macros. *)
Variables db_path conf_path DBIMPORT DBPATH : string.

(** yaml-cpp's conversions ([convert<R>::decode]) for the ten element
    types; [float] and [double] stand for the C++ types of those names. *)
Variables float double : Type.
Variable as_bool : Tree -> option bool.
Variable as_int16 : Tree -> option int16.
Variable as_uint16 : Tree -> option uint16.
Variable as_int32 : Tree -> option int32.
Variable as_uint32 : Tree -> option uint32.
Variable as_int64 : Tree -> option int64.
Variable as_uint64 : Tree -> option uint64.
Variable as_float : Tree -> option float.
Variable as_double : Tree -> option double.
Variable as_string : Tree -> option string.

(** The file system as [YAML::LoadFile] sees it. *)
Variable LoadFile : string -> LoadResult.

(** The state the entry callback captures and updates. *)
Variable U : Type.

(** *** Typed accessors: each overload fixes R and passes nullptr or the
    address of its by-value default. *)

Definition asBool node name out := asType as_bool node name out None.
Definition asBool_default node name out (defaultValue : bool) :=
  asType as_bool node name out (Some defaultValue).
Definition asInt16 node name out := asType as_int16 node name out None.
Definition asInt16_default node name out (defaultValue : int16) :=
  asType as_int16 node name out (Some defaultValue).
Definition asUInt16 node name out := asType as_uint16 node name out None.
Definition asUInt16_default node name out (defaultValue : uint16) :=
  asType as_uint16 node name out (Some defaultValue).
Definition asInt32 node name out := asType as_int32 node name out None.
Definition asInt32_default node name out (defaultValue : int32) :=
  asType as_int32 node name out (Some defaultValue).
Definition asUInt32 node name out := asType as_uint32 node name out None.
Definition asUInt32_default node name out (defaultValue : uint32) :=
  asType as_uint32 node name out (Some defaultValue).
Definition asInt64 node name out := asType as_int64 node name out None.
Definition asInt64_default node name out (defaultValue : int64) :=
  asType as_int64 node name out (Some defaultValue).
Definition asUInt64 node name out := asType as_uint64 node name out None.
Definition asUInt64_default node name out (defaultValue : uint64) :=
  asType as_uint64 node name out (Some defaultValue).
Definition asFloat node name out := asType as_float node name out None.
Definition asFloat_default node name out (defaultValue : float) :=
  asType as_float node name out (Some defaultValue).
Definition asDouble node name out := asType as_double node name out None.
Definition asDouble_default node name out (defaultValue : double) :=
  asType as_double node name out (Some defaultValue).
Definition asString node name out := asType as_string node name out None.
Definition asString_default node name out (defaultValue : string) :=
  asType as_string node name out (Some defaultValue).

(** *** verifyCompatibility *)

(** The version ladder of lines 48-60, on the converted header version. *)
Definition checkVersion (this : YamlDatabase) (tmpVersion : uint16) : Eff bool :=
  if negb (tmpVersion =? version this) then
    if tmpVersion >? version this then
      show (ShowError (VersionTooNew tmpVersion (version this))) ;;;
      ret false
    else if tmpVersion >=? minimumVersion this then
      show (ShowWarning (VersionOutdated tmpVersion (minimumVersion this))) ;;;
      ret true
    else
      show (ShowError (VersionTooOld tmpVersion (minimumVersion this))) ;;;
      ret false
  else ret true.

Definition verifyCompatibility (this : YamlDatabase) (rootNode : Node) : Eff bool :=
  hasHeader <- call (nodeExists rootNode "Header") ;;
  if negb hasHeader then
    show (ShowError NoHeader) ;;; ret false
  else
    headerNode <- call (subscript rootNode "Header") ;;
    hasType <- call (nodeExists headerNode "Type") ;;
    if negb hasType then
      show (ShowError NoType) ;;; ret false
    else
      typeNode <- call (subscript headerNode "Type") ;;
      tmpType <- call (as_ as_string typeNode) ;;
      if negb (String.eqb tmpType (type this)) then
        show (ShowError (TypeMismatch (type this) tmpType)) ;;; ret false
      else
        a <- access (asUInt16 headerNode "Version" target) ;;
        if negb (fst a) then
          show (ShowError (InvalidVersionType (type this))) ;;; ret false
        else
          (* tmpVersion is an uninitialised local; asType stores into it
             whenever it returns true, so the 0 below is never read. *)
          let tmpVersion := match snd a with Some v => v | None => 0 end in
          checkVersion this tmpVersion.

(** *** load *)

Definition load (path : string) : M U bool := fun w =>
  let w := record [LoadCalled path] w in
  match LoadFile path with
  | Failed msg line column =>
      (Ok false,
       print [ShowError (ReadFailed (type (self w)) path);
              ShowError (ReadFailedAt msg line column)] w)
  | Loaded t =>
      let rootNode := Valid t in
      match verifyCompatibility (self w) rootNode with
      | (Throw e, lines) => (Throw e, print lines w)
      | (Ok false, lines) =>
          (Ok false, print (lines ++ [ShowError (VerifyFailed (type (self w)) path)]) w)
      | (Ok true, lines) => (Ok true, set_root rootNode (print lines w))
      end
  end.

Definition getRootNode (w : World U) : Node := root (self w).

(** *** getLocations *)

Definition getLocations (filename : string) (location : e_yamldb_location) : list string :=
  match location with
  | NORMAL_DB =>
      [ (db_path ++ "/") ++ filename;
        (((db_path ++ "/") ++ DBIMPORT) ++ "/") ++ filename ]%string
  | SPLIT_DB =>
      [ ((db_path ++ "/") ++ DBPATH) ++ filename;
        (((db_path ++ "/") ++ DBIMPORT) ++ "/") ++ filename ]%string
  | CONF_DB =>
      [ (conf_path ++ "/") ++ filename;
        (conf_path ++ "/import/") ++ filename ]%string
  | UNLISTED => []
  end.

(** *** parse *)

(** The inner range-for over the Body, with its running [count]. *)
Fixpoint body_loop (func : Node -> string -> U -> bool * U) (current_file : string)
    (nodes : list Node) (count : Z) (w : World U) : Z * World U :=
  match nodes with
  | [] => (count, w)
  | node :: rest =>
      if IsDefined node then
        let (ok, u) := func node current_file (user w) in
        let w := record [FuncCalled node current_file ok] (set_user u w) in
        body_loop func current_file rest (if ok then count + 1 else count) w
      else
        body_loop func current_file rest count w
  end.

(** The outer range-for over the resolved files.  load and ShowStatus
    receive [current_file.c_str()], the callback [current_file] itself. *)
Fixpoint parse_files (func : Node -> string -> U -> bool * U)
    (db_filename : list string) : M U bool := fun w =>
  match db_filename with
  | [] => (Ok true, w)
  | current_file :: rest =>
      match load (c_str current_file) w with
      | (Throw e, w) => (Throw e, w)
      | (Ok false, w) => (Ok false, w)
      | (Ok true, w) =>
          match subscript (getRootNode w) "Body" with
          | Throw e => (Throw e, w)
          | Ok body =>
              let (count, w) := body_loop func current_file (iterate body) 0 w in
              parse_files func rest
                (print [ShowStatus (DoneReading count (c_str current_file))] w)
          end
      end
  end.

Definition parse (filename : string) (location : e_yamldb_location)
    (func : Node -> string -> U -> bool * U) : M U bool :=
  parse_files func (getLocations filename location).


(** ** Vocabulary of the statements *)

(** [dir/name]. *)
Definition path_join (dir name : string) : string := (dir ++ "/" ++ name)%string.

(** What identifies the dataset: everything of the object but its root. *)
Definition dataset (this : YamlDatabase) : string * Z * Z :=
  (type this, version this, minimumVersion this).

(** The file at [path] parses and its header is accepted. *)
Definition loadable (this : YamlDatabase) (path : string) : Prop :=
  exists t, LoadFile path = Loaded t /\
            fst (verifyCompatibility this (Valid t)) = Ok true.

(** The paths [load] was called on, in order. *)
Definition loads_of (h : list Event) : list string :=
  flat_map (fun e => match e with LoadCalled p => [p] | _ => [] end) h.

(** A typed accessor stores through [out] exactly when it returns true. *)
Definition stores_iff_true {R : Type} (a : Access R) : Prop :=
  (returned a = Ok false -> written a = None) /\
  (returned a = Ok true <-> written a <> None).

(** The processing of one file: its path, its document and, in order, the
    callback calls made for it with the flag each returned. *)
Record FileRun : Type := mkFileRun {
  run_file : string;
  run_tree : Tree;
  run_calls : list (Node * bool)
}.

Definition accepted (calls : list (Node * bool)) : Z :=
  Z.of_nat (length (filter snd calls)).

Definition call_events (file : string) (calls : list (Node * bool)) : list Event :=
  map (fun c => FuncCalled (fst c) file (snd c)) calls.

(** The events of one file: the load, what the header check showed, the
    callback calls, then the status line with the number of accepted
    entries. *)
Definition run_events (this : YamlDatabase) (r : FileRun) : list Event :=
  [LoadCalled (c_str (run_file r))]
  ++ map Shown (snd (verifyCompatibility this (Valid (run_tree r))))
  ++ call_events (run_file r) (run_calls r)
  ++ [Shown (ShowStatus (DoneReading (accepted (run_calls r)) (c_str (run_file r))))].

(** The document is the one found at the C string of the path, and the
    callback was called on the defined handles of its Body, all of them,
    in order, and on nothing else. *)
Definition runs_over_body (r : FileRun) : Prop :=
  LoadFile (c_str (run_file r)) = Loaded (run_tree r) /\
  exists body, subscript (Valid (run_tree r)) "Body" = Ok body /\
               map fst (run_calls r) = filter IsDefined (iterate body).

(** The flags are the callback's own: starting in state [u], each call of
    [calls] is [func] applied to the node, the file and the state the call
    before left, and [u'] is the state the last one left. *)
Inductive answered (func : Node -> string -> U -> bool * U) (file : string) :
    U -> list (Node * bool) -> U -> Prop :=
| answered_nil (u : U) : answered func file u [] u
| answered_cons (u u' u'' : U) (node : Node) (ok : bool) (calls : list (Node * bool)) :
    func node file u = (ok, u') ->
    answered func file u' calls u'' ->
    answered func file u ((node, ok) :: calls) u''.

(** The same through a sequence of files, the state passing from the
    last call of one file to the first call of the next. *)
Inductive threaded (func : Node -> string -> U -> bool * U) :
    U -> list FileRun -> U -> Prop :=
| threaded_nil (u : U) : threaded func u [] u
| threaded_cons (u u' u'' : U) (r : FileRun) (runs : list FileRun) :
    answered func (run_file r) u (run_calls r) u' ->
    threaded func u' runs u'' ->
    threaded func u (r :: runs) u''.

(** The calls of the entry callback, in order: node, file, returned flag. *)
Definition calls_of (h : list Event) : list (Node * string * bool) :=
  flat_map (fun e => match e with FuncCalled n f b => [(n, f, b)] | _ => [] end) h.

(** The paths verifyCompatibility can take: what the document looks like
    on each, and what the function returns and shows there. *)
Inductive verify_case (this : YamlDatabase) (rootNode : Node) : Eff bool -> Prop :=
| vc_root_scalar (l : Z) (s : string) :
    rootNode = Valid (Scalar l s) ->
    verify_case this rootNode (Throw BadSubscript, [])
| vc_no_header :
    nodeExists rootNode "Header" = Ok false ->
    verify_case this rootNode (Ok false, [ShowError NoHeader])
| vc_header_scalar (l : Z) (s : string) :
    subscript rootNode "Header" = Ok (Valid (Scalar l s)) ->
    verify_case this rootNode (Throw BadSubscript, [])
| vc_no_type (h : Tree) :
    subscript rootNode "Header" = Ok (Valid h) ->
    nodeExists (Valid h) "Type" = Ok false ->
    verify_case this rootNode (Ok false, [ShowError NoType])
| vc_type_not_string (h ty : Tree) :
    subscript rootNode "Header" = Ok (Valid h) ->
    subscript (Valid h) "Type" = Ok (Valid ty) ->
    as_string ty = None ->
    verify_case this rootNode (Throw BadConversion, [])
| vc_type_mismatch (h ty : Tree) (s : string) :
    subscript rootNode "Header" = Ok (Valid h) ->
    subscript (Valid h) "Type" = Ok (Valid ty) ->
    as_string ty = Some s ->
    s <> type this ->
    verify_case this rootNode (Ok false, [ShowError (TypeMismatch (type this) s)])
| vc_no_version (h ty : Tree) :
    subscript rootNode "Header" = Ok (Valid h) ->
    subscript (Valid h) "Type" = Ok (Valid ty) ->
    as_string ty = Some (type this) ->
    nodeExists (Valid h) "Version" = Ok false ->
    verify_case this rootNode
      (Ok false, [ShowError (MissingNode "Version" (line_of h + 1));
                  ShowError (InvalidVersionType (type this))])
| vc_bad_version (h ty vt : Tree) :
    subscript rootNode "Header" = Ok (Valid h) ->
    subscript (Valid h) "Type" = Ok (Valid ty) ->
    as_string ty = Some (type this) ->
    subscript (Valid h) "Version" = Ok (Valid vt) ->
    as_uint16 vt = None ->
    verify_case this rootNode
      (Ok false, [ShowError (Unparsable "Version" (line_of vt + 1));
                  ShowError (InvalidVersionType (type this))])
| vc_version (h ty vt : Tree) (v : uint16) :
    subscript rootNode "Header" = Ok (Valid h) ->
    subscript (Valid h) "Type" = Ok (Valid ty) ->
    as_string ty = Some (type this) ->
    subscript (Valid h) "Version" = Ok (Valid vt) ->
    as_uint16 vt = Some v ->
    verify_case this rootNode (checkVersion this v).

(** ** Properties *)

(** *** nodeExists *)

Lemma nodeExists_true (node : Node) (name : string) :
  nodeExists node name = Ok true ->
  exists line entries v,
    node = Valid (Map line entries) /\ find_key entries name = Some v /\
    subscript node name = Ok (Valid v).
Proof.
  unfold nodeExists.
  destruct node as [[l | l s | l items | l entries] | ]; simpl; try discriminate.
  destruct (find_key entries name) as [v | ] eqn:Hk; simpl; try discriminate.
  intros _. exists l, entries, v. simpl. rewrite Hk. auto.
Qed.

Lemma nodeExists_subscript (node : Node) (name : string) (t : Tree) :
  subscript node name = Ok (Valid t) -> nodeExists node name = Ok true.
Proof.
  unfold nodeExists. intros ->. reflexivity.
Qed.

(** The handler does its job: InvalidNode never leaves nodeExists, and a
    lookup that raised it is answered with false. *)
Lemma nodeExists_handles_InvalidNode (node : Node) (name : string) :
  nodeExists node name <> Throw InvalidNode /\
  (subscript node name = Throw InvalidNode -> nodeExists node name = Ok false).
Proof.
  unfold nodeExists. split.
  - destruct (subscript node name) as [sub | []]; discriminate.
  - intros ->. reflexivity.
Qed.

(** C8, at the failing input.  The header of the document [Header: 5] is a
    scalar.  Probing it for Type makes the subscript raise BadSubscript,
    which the InvalidNode handler of nodeExists does not handle: the
    exception leaves nodeExists, where the answer false was expected, and
    then leaves verifyCompatibility, which shows nothing. *)
Theorem nodeExists_scalar_throws :
  nodeExists (Valid (Scalar 0 "5")) "Type" = Throw BadSubscript /\
  forall this : YamlDatabase,
    verifyCompatibility this (Valid Sample.scalar_header) = (Throw BadSubscript, []).
Proof. split; reflexivity. Qed.

(** *** asType *)


(** C4. When the field is present but does not convert to R: with a
    default d the accessor returns true, stores d and shows exactly one
    warning, naming the field and the 1-based line of the field node; with
    no default it returns false, stores nothing and shows one error with
    that same line. *)
Theorem asType_unconvertible_field {R : Type} (decode : Tree -> option R)
    (node : Node) (name : string) (field : Tree) :
  subscript node name = Ok (Valid field) ->
  decode field = None ->
  (forall d : R,
     asType decode node name target (Some d)
       = mkAccess (Ok true) (Some d)
           [ShowWarning (UnparsableUsingDefault name (line_of field + 1))]) /\
  asType decode node name target None
    = mkAccess (Ok false) None [ShowError (Unparsable name (line_of field + 1))].
Proof.
  intros Hsub Hdec. unfold asType.
  rewrite (nodeExists_subscript _ _ _ Hsub), Hsub. simpl. rewrite Hdec.
  split; reflexivity.
Qed.

Lemma asType_stores_iff_true {R : Type} (decode : Tree -> option R)
    (node : Node) (name : string) (out : pointer) (defaultValue : option R) :
  stores_iff_true (asType decode node name out defaultValue).
Proof.
  unfold stores_iff_true, asType.
  destruct out; [simpl; intuition discriminate | ].
  destruct (nodeExists node name) as [[ | ] | e]; simpl.
  - destruct (subscript node name) as [dataNode | e]; simpl;
      [ | intuition discriminate].
    destruct dataNode as [t | ]; simpl; [ | intuition discriminate].
    destruct (decode t); simpl; [intuition discriminate | ].
    destruct defaultValue; simpl; intuition discriminate.
  - destruct defaultValue; simpl; [intuition discriminate | ].
    destruct (Mark_line node); simpl; intuition discriminate.
  - intuition discriminate.
Qed.

Lemma asType_converts {R : Type} (decode : Tree -> option R)
    (node : Node) (name : string) (field : Tree) (value : R) (defaultValue : option R) :
  subscript node name = Ok (Valid field) ->
  decode field = Some value ->
  asType decode node name target defaultValue = mkAccess (Ok true) (Some value) [].
Proof.
  intros Hsub Hdec. unfold asType.
  rewrite (nodeExists_subscript _ _ _ Hsub), Hsub. simpl. rewrite Hdec.
  reflexivity.
Qed.

(** C10. Each of the twenty typed accessors, on every node, field name and
    output pointer (null or not), stores through the pointer exactly when
    it returns true; when it returns false, or throws, nothing is stored. *)
Theorem typed_accessors_store_iff_true (node : Node) (name : string) (out : pointer) :
  (stores_iff_true (asBool node name out) /\
   forall d, stores_iff_true (asBool_default node name out d)) /\
  (stores_iff_true (asInt16 node name out) /\
   forall d, stores_iff_true (asInt16_default node name out d)) /\
  (stores_iff_true (asUInt16 node name out) /\
   forall d, stores_iff_true (asUInt16_default node name out d)) /\
  (stores_iff_true (asInt32 node name out) /\
   forall d, stores_iff_true (asInt32_default node name out d)) /\
  (stores_iff_true (asUInt32 node name out) /\
   forall d, stores_iff_true (asUInt32_default node name out d)) /\
  (stores_iff_true (asInt64 node name out) /\
   forall d, stores_iff_true (asInt64_default node name out d)) /\
  (stores_iff_true (asUInt64 node name out) /\
   forall d, stores_iff_true (asUInt64_default node name out d)) /\
  (stores_iff_true (asFloat node name out) /\
   forall d, stores_iff_true (asFloat_default node name out d)) /\
  (stores_iff_true (asDouble node name out) /\
   forall d, stores_iff_true (asDouble_default node name out d)) /\
  (stores_iff_true (asString node name out) /\
   forall d, stores_iff_true (asString_default node name out d)).
Proof.
  repeat match goal with |- _ /\ _ => split end;
    intros; apply asType_stores_iff_true.
Qed.

(** *** verifyCompatibility *)

Lemma checkVersion_cases (this : YamlDatabase) (v : uint16) :
  (v > version this ->
     checkVersion this v = (Ok false, [ShowError (VersionTooNew v (version this))])) /\
  (minimumVersion this <= v < version this ->
     checkVersion this v
       = (Ok true, [ShowWarning (VersionOutdated v (minimumVersion this))])) /\
  (v < minimumVersion this -> v < version this ->
     checkVersion this v
       = (Ok false, [ShowError (VersionTooOld v (minimumVersion this))])) /\
  (v = version this -> checkVersion this v = (Ok true, [])).
Proof.
  unfold checkVersion. repeat split; intros.
  - destruct (Z.eqb_spec v (version this)); [lia | ]. simpl.
    destruct (Z.gtb_spec v (version this)); [reflexivity | lia].
  - destruct (Z.eqb_spec v (version this)); [lia | ]. simpl.
    destruct (Z.gtb_spec v (version this)); [lia | ].
    destruct (Z.geb_spec v (minimumVersion this)); [reflexivity | lia].
  - destruct (Z.eqb_spec v (version this)); [lia | ]. simpl.
    destruct (Z.gtb_spec v (version this)); [lia | ].
    destruct (Z.geb_spec v (minimumVersion this)); [lia | reflexivity].
  - destruct (Z.eqb_spec v (version this)); [reflexivity | lia].
Qed.

Lemma bind_call_Ok {A B : Type} (a : A) (k : A -> Eff B) :
  bind (call (Ok a)) k = k a.
Proof.
  unfold bind, call. destruct (k a). reflexivity.
Qed.

Lemma bind_access_silent {R B : Type} (b : bool) (stored : option R)
    (k : bool * option R -> Eff B) :
  bind (access (mkAccess (Ok b) stored [])) k = k (b, stored).
Proof.
  unfold bind, access. simpl. destruct (k (b, stored)). reflexivity.
Qed.

(** With a header whose Type is the dataset's and whose Version converts
    to [v], verifyCompatibility is the version ladder at [v], and the
    accessor that read the version has shown nothing. *)
Lemma verifyCompatibility_reads_version (this : YamlDatabase)
    (rootNode headerNode : Node) (typeTree versionTree : Tree) (v : uint16) :
  subscript rootNode "Header" = Ok headerNode ->
  subscript headerNode "Type" = Ok (Valid typeTree) ->
  as_string typeTree = Some (type this) ->
  subscript headerNode "Version" = Ok (Valid versionTree) ->
  as_uint16 versionTree = Some v ->
  verifyCompatibility this rootNode = checkVersion this v.
Proof.
  intros Hh Ht Hty Hv Hver. unfold verifyCompatibility.
  destruct headerNode as [h | ]; [ | discriminate].
  rewrite (nodeExists_subscript _ _ _ Hh), Hh.
  rewrite !bind_call_Ok. cbn [negb].
  rewrite (nodeExists_subscript _ _ _ Ht), Ht.
  rewrite !bind_call_Ok. cbn [negb].
  assert (Has : as_ as_string (Valid typeTree) = Ok (type this))
    by (unfold as_; rewrite Hty; reflexivity).
  rewrite Has, bind_call_Ok, String.eqb_refl. cbn [negb].
  unfold asUInt16. rewrite (asType_converts _ _ _ _ _ _ Hv Hver).
  rewrite bind_access_silent. reflexivity.
Qed.

(** C1, amended. For a document whose header Type is the dataset's type
    and whose Version converts to v: v above the version is rejected; v
    from the minimum version up to, but excluding, the version is accepted
    with exactly one warning, the outdated-version one; v below the
    minimum version and different from the version is rejected (with the
    too-old error when it is below the version); v equal to the version is
    accepted and nothing is shown, whatever the minimum version is. *)
Theorem verifyCompatibility_version_protocol (this : YamlDatabase)
    (rootNode headerNode : Node) (typeTree versionTree : Tree) (v : uint16) :
  subscript rootNode "Header" = Ok headerNode ->
  subscript headerNode "Type" = Ok (Valid typeTree) ->
  as_string typeTree = Some (type this) ->
  subscript headerNode "Version" = Ok (Valid versionTree) ->
  as_uint16 versionTree = Some v ->
  (v > version this ->
     verifyCompatibility this rootNode
       = (Ok false, [ShowError (VersionTooNew v (version this))])) /\
  (minimumVersion this <= v < version this ->
     verifyCompatibility this rootNode
       = (Ok true, [ShowWarning (VersionOutdated v (minimumVersion this))])) /\
  (v < minimumVersion this -> v <> version this ->
     fst (verifyCompatibility this rootNode) = Ok false /\
     (v < version this ->
        verifyCompatibility this rootNode
          = (Ok false, [ShowError (VersionTooOld v (minimumVersion this))]))) /\
  (v = version this -> verifyCompatibility this rootNode = (Ok true, [])).
Proof.
  intros Hh Ht Hty Hv Hver.
  rewrite (verifyCompatibility_reads_version _ _ _ _ _ _ Hh Ht Hty Hv Hver).
  destruct (checkVersion_cases this v) as (Hnew & Hout & Hold & Hsame).
  repeat match goal with |- _ /\ _ => split end; auto.
  intros Hmin Hne. split.
  - destruct (Z_lt_le_dec v (version this)) as [Hlt | Hge].
    + now rewrite (Hold Hmin Hlt).
    + rewrite Hnew by lia. reflexivity.
  - intros Hlt. now apply Hold.
Qed.

Lemma verifyCompatibility_dataset (a b : YamlDatabase) (rootNode : Node) :
  dataset a = dataset b ->
  verifyCompatibility a rootNode = verifyCompatibility b rootNode.
Proof.
  destruct a as [ta va ma ra], b as [tb vb mb rb]. unfold dataset. simpl.
  intros H. inversion H. subst. reflexivity.
Qed.

(** A document that passes the check is a map, so its Body can be looked
    up without an exception. *)
Lemma verifyCompatibility_true_map (this : YamlDatabase) (rootNode : Node) :
  fst (verifyCompatibility this rootNode) = Ok true ->
  exists line entries, rootNode = Valid (Map line entries).
Proof.
  unfold verifyCompatibility.
  destruct (nodeExists rootNode "Header") as [[ | ] | e] eqn:Hex; simpl;
    try discriminate.
  destruct (nodeExists_true _ _ Hex) as (l & es & v & -> & _ & _).
  intros _. eauto.
Qed.

(** *** getLocations *)

Lemma append_assoc (a b c : string) :
  ((a ++ b) ++ c)%string = (a ++ (b ++ c))%string.
Proof.
  induction a as [ | ch a IH]; simpl; [reflexivity | now rewrite IH].
Qed.

(** C6. getLocations depends on the name, the category and the path
    configuration only, and gives, base path first and import path second:
    for NORMAL_DB db_path/name and db_path/DBIMPORT/name; for SPLIT_DB
    db_path/DBPATH+name and db_path/DBIMPORT/name; for CONF_DB
    conf_path/name and conf_path/import/name; and for a value that is none
    of the three enumerators the empty list. *)
Theorem getLocations_paths (filename : string) :
  getLocations filename NORMAL_DB
    = [path_join db_path filename;
       path_join (path_join db_path DBIMPORT) filename] /\
  getLocations filename SPLIT_DB
    = [path_join db_path (DBPATH ++ filename)%string;
       path_join (path_join db_path DBIMPORT) filename] /\
  getLocations filename CONF_DB
    = [path_join conf_path filename;
       path_join (path_join conf_path "import") filename] /\
  getLocations filename UNLISTED = [].
Proof.
  unfold getLocations, path_join.
  repeat match goal with |- _ /\ _ => split end;
    repeat rewrite append_assoc; reflexivity.
Qed.

(** *** load *)

Lemma loadable_dataset (a b : YamlDatabase) (path : string) :
  dataset a = dataset b -> loadable a path -> loadable b path.
Proof.
  intros Hd (t & Hl & Hv). exists t. split; [exact Hl | ].
  now rewrite <- (verifyCompatibility_dataset a b _ Hd).
Qed.

Lemma load_loadable (path : string) (w : World U) :
  loadable (self w) path ->
  exists t,
    LoadFile path = Loaded t /\
    fst (verifyCompatibility (self w) (Valid t)) = Ok true /\
    load path w
      = (Ok true,
         set_root (Valid t)
           (print (snd (verifyCompatibility (self w) (Valid t)))
              (record [LoadCalled path] w))).
Proof.
  intros (t & Hl & Hv). exists t. repeat split; auto.
  unfold load. rewrite Hl. simpl self.
  destruct (verifyCompatibility (self w) (Valid t)) as [r lines].
  simpl in Hv. subst r. reflexivity.
Qed.

Lemma load_history (path : string) (w : World U) :
  exists lines,
    history (snd (load path w)) = history w ++ LoadCalled path :: map Shown lines.
Proof.
  unfold load. destruct (LoadFile path) as [t | msg l c]; simpl self.
  - destruct (verifyCompatibility (self w) (Valid t)) as [[[ | ] | e] lines].
    + exists lines. simpl. now rewrite <- app_assoc.
    + exists (lines ++ [ShowError (VerifyFailed (type (self w)) path)]).
      simpl. now rewrite <- app_assoc.
    + exists lines. simpl. now rewrite <- app_assoc.
  - exists [ShowError (ReadFailed (type (self w)) path);
            ShowError (ReadFailedAt msg l c)].
    simpl. now rewrite <- app_assoc.
Qed.

(** C9. Whatever the path: when load returns false, the file did not parse
    or its header was refused, and the object, its root included, is as it
    was; the same holds when load throws; and when the root has changed,
    load has returned true, the file has parsed, the check has accepted it
    and the new root is that document. *)
Theorem load_replaces_root_only_on_success (path : string) (w w' : World U) (r : Res bool) :
  load path w = (r, w') ->
  (r = Ok false ->
     root (self w') = root (self w) /\
     ((exists msg line column, LoadFile path = Failed msg line column) \/
      (exists t, LoadFile path = Loaded t /\
                 fst (verifyCompatibility (self w) (Valid t)) = Ok false))) /\
  (r <> Ok true -> self w' = self w) /\
  (root (self w') <> root (self w) ->
     r = Ok true /\
     exists t, LoadFile path = Loaded t /\
               fst (verifyCompatibility (self w) (Valid t)) = Ok true /\
               root (self w') = Valid t).
Proof.
  unfold load. destruct (LoadFile path) as [t | msg l c] eqn:Hl; simpl self.
  - destruct (verifyCompatibility (self w) (Valid t)) as [[[ | ] | e] lines] eqn:Hv;
      intros H; inversion H; subst; simpl; (split; [ | split]).
    + discriminate.
    + congruence.
    + intros _. split; [reflexivity | ]. exists t. rewrite Hv. auto.
    + intros _. split; [reflexivity | ]. right. exists t. rewrite Hv. auto.
    + reflexivity.
    + congruence.
    + discriminate.
    + reflexivity.
    + congruence.
  - intros H; inversion H; subst; simpl; (split; [ | split]).
    + intros _. split; [reflexivity | ]. left. eauto.
    + reflexivity.
    + congruence.
Qed.

(** *** parse *)

(** C7. With a location that is none of the three enumerators, parse
    returns true and leaves the world as it found it: load was not called,
    the callback was not called, nothing was shown, the root is the same. *)
Theorem parse_unlisted_location (filename : string)
    (func : Node -> string -> U -> bool * U) (w : World U) :
  parse filename UNLISTED func w = (Ok true, w).
Proof. reflexivity. Qed.

Lemma accepted_cons (node : Node) (ok : bool) (calls : list (Node * bool)) :
  accepted ((node, ok) :: calls) = (if ok then 1 else 0) + accepted calls.
Proof.
  unfold accepted. simpl. destruct ok; simpl length; lia.
Qed.

(** The inner loop calls the callback on the defined handles, in order,
    whatever the callback answers, and counts the true answers. *)
Lemma body_loop_spec (func : Node -> string -> U -> bool * U) (file : string)
    (nodes : list Node) :
  forall (count : Z) (w : World U),
  exists calls w2,
    body_loop func file nodes count w = (count + accepted calls, w2) /\
    map fst calls = filter IsDefined nodes /\
    self w2 = self w /\
    history w2 = history w ++ call_events file calls.
Proof.
  induction nodes as [ | node rest IH]; intros count w; simpl.
  - exists [], w. unfold accepted, call_events. simpl.
    rewrite Z.add_0_r, app_nil_r. auto.
  - destruct (IsDefined node).
    + destruct (func node file (user w)) as [ok u] eqn:Hf.
      destruct (IH (if ok then count + 1 else count)
                   (record [FuncCalled node file ok] (set_user u w)))
        as (calls & w2 & Hrun & Hmap & Hself & Hhist).
      exists ((node, ok) :: calls), w2. rewrite Hrun, accepted_cons.
      repeat split.
      * f_equal. destruct ok; lia.
      * simpl. now rewrite Hmap.
      * exact Hself.
      * rewrite Hhist. simpl. now rewrite <- app_assoc.
    + apply IH.
Qed.

Lemma run_events_dataset (a b : YamlDatabase) (r : FileRun) :
  dataset a = dataset b -> run_events a r = run_events b r.
Proof.
  intros Hd. unfold run_events.
  now rewrite (verifyCompatibility_dataset a b _ Hd).
Qed.

(** The inner loop again, with where the flags come from. *)
Lemma body_loop_run (func : Node -> string -> U -> bool * U) (file : string)
    (nodes : list Node) :
  forall (count : Z) (w : World U),
  exists calls w2,
    body_loop func file nodes count w = (count + accepted calls, w2) /\
    map fst calls = filter IsDefined nodes /\
    self w2 = self w /\
    history w2 = history w ++ call_events file calls /\
    answered func file (user w) calls (user w2).
Proof.
  induction nodes as [ | node rest IH]; intros count w; simpl.
  - exists [], w. unfold accepted, call_events. simpl.
    rewrite Z.add_0_r, app_nil_r. repeat split; auto. constructor.
  - destruct (IsDefined node).
    + destruct (func node file (user w)) as [ok u] eqn:Hf.
      destruct (IH (if ok then count + 1 else count)
                   (record [FuncCalled node file ok] (set_user u w)))
        as (calls & w2 & Hrun & Hmap & Hself & Hhist & Hans).
      exists ((node, ok) :: calls), w2. rewrite Hrun, accepted_cons.
      repeat split.
      * f_equal. destruct ok; lia.
      * simpl. now rewrite Hmap.
      * exact Hself.
      * rewrite Hhist. simpl. now rewrite <- app_assoc.
      * econstructor; [exact Hf | exact Hans].
    + apply IH.
Qed.

Lemma parse_files_all_loadable (func : Node -> string -> U -> bool * U)
    (files : list string) :
  forall w : World U,
  Forall (fun p => loadable (self w) (c_str p)) files ->
  exists runs w',
    parse_files func files w = (Ok true, w') /\
    map run_file runs = files /\
    Forall runs_over_body runs /\
    threaded func (user w) runs (user w') /\
    history w' = history w ++ flat_map (run_events (self w)) runs.
Proof.
  induction files as [ | p rest IH]; intros w Hall.
  - exists [], w. simpl. rewrite app_nil_r. repeat split; auto. constructor.
  - inversion Hall as [ | ? ? Hp Hrest]; subst.
    destruct (load_loadable (c_str p) w Hp) as (t & Hl & Hv & Hload).
    destruct (verifyCompatibility_true_map _ _ Hv) as (l & es & Ht).
    injection Ht as ->.
    assert (Hbody : exists body, subscript (Valid (Map l es)) "Body" = Ok body)
      by (simpl; destruct (find_key es "Body"); eauto).
    destruct Hbody as (body & Hbody).
    set (w1 := set_root (Valid (Map l es))
                 (print (snd (verifyCompatibility (self w) (Valid (Map l es))))
                    (record [LoadCalled (c_str p)] w))) in *.
    destruct (body_loop_run func p (iterate body) 0 w1)
      as (calls & w2 & Hrun & Hmap & Hself & Hhist & Hans).
    set (w3 := print [ShowStatus (DoneReading (0 + accepted calls) (c_str p))] w2).
    assert (Hd : dataset (self w) = dataset (self w3))
      by (unfold dataset; simpl; rewrite Hself; reflexivity).
    destruct (IH w3) as (runs & w' & Hparse & Hfiles & Hruns & Hthr & Hhist').
    { eapply Forall_impl; [ | exact Hrest].
      intros q. apply loadable_dataset. exact Hd. }
    exists (mkFileRun p (Map l es) calls :: runs), w'.
    split; [ | split; [ | split; [ | split]]].
    + simpl. rewrite Hload. unfold getRootNode. simpl root.
      rewrite Hbody, Hrun. exact Hparse.
    + simpl. now rewrite Hfiles.
    + constructor; [ | exact Hruns].
      split; [exact Hl | ]. exists body. auto.
    + econstructor; [exact Hans | exact Hthr].
    + rewrite Hhist'.
      rewrite (flat_map_ext (run_events (self w3)) (run_events (self w)))
        by (intros r; symmetry; now apply run_events_dataset).
      cbn [flat_map]. set (later := flat_map (run_events (self w)) runs).
      unfold run_events.
      cbn [run_file run_tree run_calls].
      unfold w3, print, record. cbn [history]. rewrite Hhist.
      unfold w1, set_root, print, record. cbn [history]. simpl map.
      repeat rewrite <- app_assoc. reflexivity.
Qed.

(** C5, amended. When the C string of every resolved path is loadable,
    parse returns true, and what happened is, file after file in the
    resolved order: the load of the path's C string; the callback called
    on exactly the handles of the Body of that file's document for which
    IsDefined holds (YAML null entries included), in order and whatever it
    answered, each time with the state the call before left; then the
    status line carrying the number of calls that answered true. *)
Theorem parse_counts_accepted_entries (filename : string)
    (location : e_yamldb_location) (func : Node -> string -> U -> bool * U)
    (w : World U) :
  Forall (fun p => loadable (self w) (c_str p)) (getLocations filename location) ->
  exists runs w',
    parse filename location func w = (Ok true, w') /\
    map run_file runs = getLocations filename location /\
    Forall runs_over_body runs /\
    threaded func (user w) runs (user w') /\
    history w' = history w ++ flat_map (run_events (self w)) runs.
Proof.
  intros Hall. unfold parse. now apply parse_files_all_loadable.
Qed.

Lemma parse_files_app (func : Node -> string -> U -> bool * U)
    (pre rest : list string) :
  forall w : World U,
  parse_files func (pre ++ rest) w
    = match parse_files func pre w with
      | (Ok true, w1) => parse_files func rest w1
      | stopped => stopped
      end.
Proof.
  induction pre as [ | p pre IH]; intros w; simpl.
  - reflexivity.
  - destruct (load (c_str p) w) as [[[ | ] | e] w1]; try reflexivity.
    destruct (subscript (getRootNode w1) "Body") as [body | e]; try reflexivity.
    destruct (body_loop func p (iterate body) 0 w1) as [count w2].
    apply IH.
Qed.

Lemma loads_of_app (h1 h2 : list Event) :
  loads_of (h1 ++ h2) = loads_of h1 ++ loads_of h2.
Proof. apply flat_map_app. Qed.

Lemma loads_of_Shown (lines : list Diag) : loads_of (map Shown lines) = [].
Proof. induction lines; simpl; auto. Qed.

Lemma loads_of_call_events (file : string) (calls : list (Node * bool)) :
  loads_of (call_events file calls) = [].
Proof. induction calls; simpl; auto. Qed.

Lemma load_loads (path : string) (w : World U) :
  loads_of (history (snd (load path w))) = loads_of (history w) ++ [path].
Proof.
  destruct (load_history path w) as (lines & ->).
  rewrite loads_of_app. simpl. now rewrite loads_of_Shown.
Qed.

(** A run over [files] that returns true has called load on the C string
    of each of them, once, in order. *)
Lemma parse_files_loads (func : Node -> string -> U -> bool * U)
    (files : list string) :
  forall w w' : World U,
  parse_files func files w = (Ok true, w') ->
  loads_of (history w') = loads_of (history w) ++ map c_str files.
Proof.
  induction files as [ | p rest IH]; intros w w'; simpl.
  - intros H. inversion H. now rewrite app_nil_r.
  - pose proof (load_loads (c_str p) w) as Hp.
    destruct (load (c_str p) w) as [[[ | ] | e] w1]; try discriminate.
    destruct (subscript (getRootNode w1) "Body") as [body | e]; try discriminate.
    destruct (body_loop_spec func p (iterate body) 0 w1)
      as (calls & w2 & Hrun & _ & _ & Hhist).
    rewrite Hrun. intros H. apply IH in H. rewrite H.
    unfold print, record. cbn [history]. rewrite Hhist.
    rewrite !loads_of_app, loads_of_call_events, loads_of_Shown.
    simpl in Hp. rewrite Hp, !app_nil_r, <- app_assoc. reflexivity.
Qed.

Lemma parse_files_fails_fast (func : Node -> string -> U -> bool * U)
    (pre post : list string) (p : string) (w w1 w2 : World U) :
  parse_files func pre w = (Ok true, w1) ->
  load (c_str p) w1 = (Ok false, w2) ->
  parse_files func (pre ++ p :: post) w = (Ok false, w2) /\
  loads_of (history w2) = loads_of (history w) ++ map c_str (pre ++ [p]).
Proof.
  intros Hpre Hload. split.
  - rewrite parse_files_app, Hpre. simpl. now rewrite Hload.
  - pose proof (load_loads (c_str p) w1) as Hp. rewrite Hload in Hp. simpl in Hp.
    rewrite Hp, (parse_files_loads _ _ _ _ Hpre), map_app, <- app_assoc.
    reflexivity.
Qed.

(** C2, amended. parse goes through the resolved list in order and calls
    load on the C string of each path (the path up to its first NUL, the
    path itself when it has none).  When the run over the paths before
    [p] has completed (each load returned true) and load returns false on
    the C string of [p], parse returns false in the very world that load
    left: no path after [p] is loaded or iterated, nothing more is shown,
    and load has been called on the C strings of the paths up to [p], in
    order, and on nothing else. *)
Theorem parse_fails_fast (filename : string) (location : e_yamldb_location)
    (func : Node -> string -> U -> bool * U)
    (pre post : list string) (p : string) (w w1 w2 : World U) :
  getLocations filename location = pre ++ p :: post ->
  parse_files func pre w = (Ok true, w1) ->
  load (c_str p) w1 = (Ok false, w2) ->
  parse filename location func w = (Ok false, w2) /\
  loads_of (history w2) = loads_of (history w) ++ map c_str (pre ++ [p]).
Proof.
  intros Hloc Hpre Hload. unfold parse. rewrite Hloc.
  exact (parse_files_fails_fast func pre post p w w1 w2 Hpre Hload).
Qed.

(** ** Further properties *)

(** *** verifyCompatibility, path by path *)

Lemma nodeExists_Throw (node : Node) (name : string) (e : Exception) :
  nodeExists node name = Throw e ->
  e = BadSubscript /\ exists l s, node = Valid (Scalar l s).
Proof.
  unfold nodeExists.
  destruct node as [[l | l s | l items | l entries] | ]; simpl; try discriminate.
  - intros H. inversion H. eauto.
  - destruct (find_key entries name); discriminate.
Qed.

Lemma asType_absent_eq {R : Type} (decode : Tree -> option R)
    (t : Tree) (name : string) :
  nodeExists (Valid t) name = Ok false ->
  asType decode (Valid t) name target None
    = mkAccess (Ok false) None [ShowError (MissingNode name (line_of t + 1))].
Proof.
  intros Hex. unfold asType. rewrite Hex. reflexivity.
Qed.

Lemma asType_unconvertible_eq {R : Type} (decode : Tree -> option R)
    (node : Node) (name : string) (field : Tree) :
  subscript node name = Ok (Valid field) ->
  decode field = None ->
  asType decode node name target None
    = mkAccess (Ok false) None [ShowError (Unparsable name (line_of field + 1))].
Proof.
  intros Hsub Hdec. unfold asType.
  rewrite (nodeExists_subscript _ _ _ Hsub), Hsub. simpl. rewrite Hdec.
  reflexivity.
Qed.

Lemma nodeExists_Map (l : Z) (entries : list (Tree * Tree)) (name : string) :
  nodeExists (Valid (Map l entries)) name = Ok false \/
  exists v, subscript (Valid (Map l entries)) name = Ok (Valid v).
Proof.
  unfold nodeExists. simpl.
  destruct (find_key entries name) as [v | ]; simpl; eauto.
Qed.

(** Every call of verifyCompatibility takes one of the nine paths. *)
Lemma verifyCompatibility_cases (this : YamlDatabase) (rootNode : Node) :
  verify_case this rootNode (verifyCompatibility this rootNode).
Proof.
  unfold verifyCompatibility.
  destruct (nodeExists rootNode "Header") as [[ | ] | e] eqn:Hh.
  - destruct (nodeExists_true _ _ Hh) as (l & es & h & Hroot & _ & Hsub).
    rewrite Hsub, !bind_call_Ok. cbn [negb].
    destruct (nodeExists (Valid h) "Type") as [[ | ] | e] eqn:Ht.
    + destruct (nodeExists_true _ _ Ht) as (lh & hs & ty & Hhd & _ & Htsub).
      rewrite Htsub, !bind_call_Ok. cbn [negb]. unfold as_.
      destruct (as_string ty) as [s | ] eqn:Hs.
      * rewrite bind_call_Ok.
        destruct (String.eqb_spec s (type this)) as [-> | Hne]; cbn [negb].
        -- injection Hhd as ->. unfold asUInt16.
           destruct (nodeExists_Map lh hs "Version") as [Hv | (vt & Hv)].
           ++ rewrite (asType_absent_eq _ _ _ Hv).
              eapply vc_no_version; eauto.
           ++ destruct (as_uint16 vt) as [v | ] eqn:Hver.
              ** rewrite (asType_converts _ _ _ _ _ _ Hv Hver),
                   bind_access_silent. cbn [fst snd negb].
                 eapply vc_version; eauto.
              ** rewrite (asType_unconvertible_eq _ _ _ _ Hv Hver).
                 eapply vc_bad_version; eauto.
        -- eapply vc_type_mismatch; eauto.
      * eapply vc_type_not_string; eauto.
    + rewrite bind_call_Ok. cbn [negb]. eapply vc_no_type; eauto.
    + destruct (nodeExists_Throw _ _ _ Ht) as (-> & lh & sh & Hhd).
      injection Hhd as ->. eapply vc_header_scalar; eauto.
  - rewrite bind_call_Ok. cbn [negb]. apply vc_no_header. exact Hh.
  - destruct (nodeExists_Throw _ _ _ Hh) as (-> & l & s & Hroot).
    eapply vc_root_scalar; eauto.
Qed.

Lemma checkVersion_verdict (this : YamlDatabase) (v : uint16) :
  (v = version this /\ checkVersion this v = (Ok true, [])) \/
  (minimumVersion this <= v < version this /\
   checkVersion this v
     = (Ok true, [ShowWarning (VersionOutdated v (minimumVersion this))])) \/
  (version this < v /\
   checkVersion this v = (Ok false, [ShowError (VersionTooNew v (version this))])) \/
  (v < minimumVersion this /\ v < version this /\
   checkVersion this v
     = (Ok false, [ShowError (VersionTooOld v (minimumVersion this))])).
Proof.
  destruct (checkVersion_cases this v) as (Hnew & Hout & Hold & Hsame).
  destruct (Z.lt_trichotomy v (version this)) as [Hlt | [Heq | Hgt]].
  - destruct (Z_lt_le_dec v (minimumVersion this)) as [Hmin | Hmin].
    + right. right. right. auto.
    + right. left. split; [lia | ]. apply Hout. lia.
  - left. auto.
  - right. right. left. split; [lia | ]. apply Hnew. lia.
Qed.

(** X1. What verifyCompatibility accepts.  When it returns true, the
    document has a Header with a Type that converts to the dataset's type
    and a Version that converts to some v, and either v is the dataset's
    version and nothing was shown, or v lies from the minimum version up
    to, but excluding, the version and the one outdated warning was shown.
    No document of another type or outside that window is accepted. *)
Theorem verifyCompatibility_accepts_only (this : YamlDatabase) (rootNode : Node) :
  fst (verifyCompatibility this rootNode) = Ok true ->
  exists h ty vt v,
    subscript rootNode "Header" = Ok (Valid h) /\
    subscript (Valid h) "Type" = Ok (Valid ty) /\
    as_string ty = Some (type this) /\
    subscript (Valid h) "Version" = Ok (Valid vt) /\
    as_uint16 vt = Some v /\
    ((v = version this /\ snd (verifyCompatibility this rootNode) = []) \/
     (minimumVersion this <= v < version this /\
      snd (verifyCompatibility this rootNode)
        = [ShowWarning (VersionOutdated v (minimumVersion this))])).
Proof.
  destruct (verifyCompatibility_cases this rootNode); simpl; try discriminate.
  intros Hok. exists h, ty, vt, v. repeat (split; [assumption | ]).
  destruct (checkVersion_verdict this v)
    as [(Hv & E) | [(Hv & E) | [(Hv & E) | (Hv & Hv' & E)]]];
    rewrite E in *; simpl in *; try discriminate; auto.
Qed.

(** X2. A refusal is always explained, and only by errors: when
    verifyCompatibility returns false it has shown one or two lines, all of
    severity Error, the last of which names the reason (no header, no type,
    type mismatch, invalid version, version too new, version too old). *)
Theorem verifyCompatibility_refusal_explained (this : YamlDatabase) (rootNode : Node) :
  fst (verifyCompatibility this rootNode) = Ok false ->
  exists before reason,
    snd (verifyCompatibility this rootNode) = before ++ [ShowError reason] /\
    (before = [] \/
     exists m, before = [ShowError m] /\ reason = InvalidVersionType (type this)) /\
    (reason = NoHeader \/ reason = NoType \/
     (exists s, reason = TypeMismatch (type this) s /\ s <> type this) \/
     reason = InvalidVersionType (type this) \/
     (exists v, reason = VersionTooNew v (version this) /\ version this < v) \/
     (exists v, reason = VersionTooOld v (minimumVersion this) /\
                v < minimumVersion this)).
Proof.
  destruct (verifyCompatibility_cases this rootNode); simpl; try discriminate;
    intros Hno.
  - exists [], NoHeader. auto.
  - exists [], NoType. auto.
  - exists [], (TypeMismatch (type this) s). repeat split; eauto 6.
  - exists [ShowError (MissingNode "Version" (line_of h + 1))],
      (InvalidVersionType (type this)). repeat split; eauto 6.
  - exists [ShowError (Unparsable "Version" (line_of vt + 1))],
      (InvalidVersionType (type this)). repeat split; eauto 6.
  - destruct (checkVersion_verdict this v)
      as [(Hv & E) | [(Hv & E) | [(Hv & E) | (Hv & Hv' & E)]]];
      rewrite E in *; simpl in *; try discriminate.
    + exists [], (VersionTooNew v (version this)). repeat split; eauto 8.
    + exists [], (VersionTooOld v (minimumVersion this)). repeat split; eauto 9.
Qed.

(** X3. An exception leaves verifyCompatibility only as BadSubscript (the
    document or its Header is a scalar) or as BadConversion (the Type does
    not convert to a string), never as InvalidNode, and in each case
    before anything was shown. *)
Theorem verifyCompatibility_throws_silently (this : YamlDatabase)
    (rootNode : Node) (e : Exception) :
  fst (verifyCompatibility this rootNode) = Throw e ->
  snd (verifyCompatibility this rootNode) = [] /\
  ((e = BadSubscript /\
    ((exists l s, rootNode = Valid (Scalar l s)) \/
     (exists l s, subscript rootNode "Header" = Ok (Valid (Scalar l s))))) \/
   (e = BadConversion /\
    exists h ty, subscript rootNode "Header" = Ok (Valid h) /\
                 subscript (Valid h) "Type" = Ok (Valid ty) /\
                 as_string ty = None)).
Proof.
  destruct (verifyCompatibility_cases this rootNode); simpl; try discriminate;
    intros He; inversion He; subst.
  - split; [reflexivity | ]. left. eauto 6.
  - split; [reflexivity | ]. left. eauto 6.
  - split; [reflexivity | ]. right. eauto 6.
  - destruct (checkVersion_verdict this v)
      as [(Hv & E) | [(Hv & E) | [(Hv & E) | (Hv & Hv' & E)]]];
      rewrite E in *; simpl in *; discriminate.
Qed.

(** X4. A header of another type is refused whatever its Version is
    (absent, malformed, or any number): the result is false and the one
    line shown is the type mismatch, naming the expected and the found
    type. *)
Theorem verifyCompatibility_type_mismatch (this : YamlDatabase)
    (rootNode headerNode : Node) (ty : Tree) (s : string) :
  subscript rootNode "Header" = Ok headerNode ->
  subscript headerNode "Type" = Ok (Valid ty) ->
  as_string ty = Some s ->
  s <> type this ->
  verifyCompatibility this rootNode
    = (Ok false, [ShowError (TypeMismatch (type this) s)]).
Proof.
  intros Hh Ht Hs Hne. unfold verifyCompatibility.
  destruct headerNode as [h | ]; [ | discriminate].
  rewrite (nodeExists_subscript _ _ _ Hh), Hh, !bind_call_Ok. cbn [negb].
  rewrite (nodeExists_subscript _ _ _ Ht), Ht, !bind_call_Ok. cbn [negb].
  unfold as_. rewrite Hs, bind_call_Ok.
  destruct (String.eqb_spec s (type this)); [contradiction | reflexivity].
Qed.

(** X5. With the right type, a Version that is absent or does not convert
    makes verifyCompatibility return false after two errors: the
    accessor's own (missing node, citing the header's line, or unparsable,
    citing the Version node's line) and then the invalid-version one. *)
Theorem verifyCompatibility_invalid_version (this : YamlDatabase)
    (rootNode : Node) (h ty : Tree) :
  subscript rootNode "Header" = Ok (Valid h) ->
  subscript (Valid h) "Type" = Ok (Valid ty) ->
  as_string ty = Some (type this) ->
  (nodeExists (Valid h) "Version" = Ok false ->
   verifyCompatibility this rootNode
     = (Ok false, [ShowError (MissingNode "Version" (line_of h + 1));
                   ShowError (InvalidVersionType (type this))])) /\
  (forall vt, subscript (Valid h) "Version" = Ok (Valid vt) ->
              as_uint16 vt = None ->
   verifyCompatibility this rootNode
     = (Ok false, [ShowError (Unparsable "Version" (line_of vt + 1));
                   ShowError (InvalidVersionType (type this))])).
Proof.
  intros Hh Ht Hs.
  assert (Hpre : verifyCompatibility this rootNode
                 = (a <- access (asUInt16 (Valid h) "Version" target) ;;
                    if negb (fst a) then
                      show (ShowError (InvalidVersionType (type this))) ;;; ret false
                    else
                      checkVersion this
                        match snd a with Some v => v | None => 0 end)).
  { unfold verifyCompatibility.
    rewrite (nodeExists_subscript _ _ _ Hh), Hh, !bind_call_Ok. cbn [negb].
    rewrite (nodeExists_subscript _ _ _ Ht), Ht, !bind_call_Ok. cbn [negb].
    unfold as_. rewrite Hs, bind_call_Ok, String.eqb_refl. reflexivity. }
  rewrite Hpre. unfold asUInt16. split.
  - intros Hv. rewrite (asType_absent_eq _ _ _ Hv). reflexivity.
  - intros vt Hv Hver. rewrite (asType_unconvertible_eq _ _ _ _ Hv Hver).
    reflexivity.
Qed.

(** X6. The Type is converted to a string outside any handler: when the
    header has a Type that does not convert (a sequence or a map, say),
    BadConversion leaves verifyCompatibility and nothing is shown. *)
Theorem verifyCompatibility_type_not_string (this : YamlDatabase)
    (rootNode headerNode : Node) (ty : Tree) :
  subscript rootNode "Header" = Ok headerNode ->
  subscript headerNode "Type" = Ok (Valid ty) ->
  as_string ty = None ->
  verifyCompatibility this rootNode = (Throw BadConversion, []).
Proof.
  intros Hh Ht Hs. unfold verifyCompatibility.
  destruct headerNode as [h | ]; [ | discriminate].
  rewrite (nodeExists_subscript _ _ _ Hh), Hh, !bind_call_Ok. cbn [negb].
  rewrite (nodeExists_subscript _ _ _ Ht), Ht, !bind_call_Ok. cbn [negb].
  unfold as_. rewrite Hs. reflexivity.
Qed.


(** *** asType, outcome by outcome *)

(** X7. An accessor called without default returns true only by reading
    the field: the field is present, converts to some value, that value is
    what was stored, and nothing was shown; and there, supplying a default
    changes nothing. *)
Theorem asType_true_reads_field {R : Type} (decode : Tree -> option R)
    (node : Node) (name : string) (out : pointer) :
  returned (asType decode node name out None) = Ok true ->
  exists field value,
    subscript node name = Ok (Valid field) /\
    decode field = Some value /\
    asType decode node name out None = mkAccess (Ok true) (Some value) [] /\
    forall d : R,
      asType decode node name out (Some d) = asType decode node name out None.
Proof.
  unfold asType. destruct out; [discriminate | ].
  destruct (nodeExists node name) as [[ | ] | e] eqn:Hex; simpl.
  - destruct (nodeExists_true _ _ Hex) as (l & es & field & _ & _ & Hsub).
    rewrite Hsub. simpl.
    destruct (decode field) as [value | ] eqn:Hdec; simpl; [ | discriminate].
    intros _. exists field, value. auto.
  - destruct (Mark_line node); discriminate.
  - discriminate.
Qed.

(** X8. With a default and a non-null output, an accessor never returns
    false: it returns true, or BadSubscript leaves it because the
    containing node is a scalar. *)
Theorem asType_default_never_false {R : Type} (decode : Tree -> option R)
    (node : Node) (name : string) (d : R) :
  (exists stored lines,
     asType decode node name target (Some d) = mkAccess (Ok true) (Some stored) lines) \/
  (asType decode node name target (Some d) = raise BadSubscript /\
   exists l s, node = Valid (Scalar l s)).
Proof.
  unfold asType.
  destruct (nodeExists node name) as [[ | ] | e] eqn:Hex.
  - destruct (nodeExists_true _ _ Hex) as (l & es & field & _ & _ & Hsub).
    rewrite Hsub. simpl. destruct (decode field); simpl; eauto.
  - eauto.
  - destruct (nodeExists_Throw _ _ _ Hex) as (-> & l & s & ->). right. eauto.
Qed.

(** X9. BadConversion never leaves an accessor.  When an exception does
    leave one, nothing was stored and nothing was shown, and it is either
    BadSubscript from probing a scalar node, or InvalidNode from asking an
    invalid handle for its line when no default was supplied. *)
Theorem asType_exceptions {R : Type} (decode : Tree -> option R)
    (node : Node) (name : string) (out : pointer) (defaultValue : option R)
    (e : Exception) :
  returned (asType decode node name out defaultValue) = Throw e ->
  asType decode node name out defaultValue = raise e /\
  ((e = BadSubscript /\ exists l s, node = Valid (Scalar l s)) \/
   (e = InvalidNode /\ node = Zombie /\ defaultValue = None)).
Proof.
  unfold asType. destruct out; [discriminate | ].
  destruct (nodeExists node name) as [[ | ] | e'] eqn:Hex.
  - destruct (nodeExists_true _ _ Hex) as (l & es & field & _ & _ & Hsub).
    rewrite Hsub. simpl.
    destruct (decode field); simpl; [discriminate | ].
    destruct defaultValue; discriminate.
  - destruct defaultValue; [discriminate | ].
    destruct node as [t | ]; simpl; [discriminate | ].
    intros H. inversion H. auto.
  - destruct (nodeExists_Throw _ _ _ Hex) as (-> & l & s & ->). simpl.
    intros H. inversion H. split; [reflexivity | ]. left. eauto.
Qed.

(** X10. A false return is explained by exactly one line and stores
    nothing: the fatal line when the output pointer is null; otherwise no
    default was supplied and the line is the error for a missing node or
    for an unparsable field, with a 1-based line. *)
Theorem asType_false_shows_one_line {R : Type} (decode : Tree -> option R)
    (node : Node) (name : string) (out : pointer) (defaultValue : option R) :
  returned (asType decode node name out defaultValue) = Ok false ->
  written (asType decode node name out defaultValue) = None /\
  ((out = nullptr /\
    shown (asType decode node name out defaultValue)
      = [ShowFatalError NoOutputPointer]) \/
   (out = target /\ defaultValue = None /\
    ((exists t, node = Valid t /\ nodeExists node name = Ok false /\
        shown (asType decode node name out defaultValue)
          = [ShowError (MissingNode name (line_of t + 1))]) \/
     (exists field, subscript node name = Ok (Valid field) /\
        decode field = None /\
        shown (asType decode node name out defaultValue)
          = [ShowError (Unparsable name (line_of field + 1))])))).
Proof.
  unfold asType. destruct out; [simpl; auto | ].
  destruct (nodeExists node name) as [[ | ] | e'] eqn:Hex.
  - destruct (nodeExists_true _ _ Hex) as (l & es & field & _ & _ & Hsub).
    rewrite Hsub. simpl.
    destruct (decode field) eqn:Hdec; simpl; [discriminate | ].
    destruct defaultValue; simpl; [discriminate | ].
    intros _. split; [reflexivity | ]. right. repeat split.
    right. exists field. auto.
  - destruct defaultValue; [discriminate | ].
    destruct node as [t | ]; simpl; [ | discriminate].
    intros _. split; [reflexivity | ]. right. repeat split.
    left. exists t. auto.
  - discriminate.
Qed.

(** X11. A true return is silent unless the default replaced a value that
    did not convert: when an accessor returns true and has shown anything,
    a default d was supplied, the field is present and does not convert, d
    is what was stored, and the single line is the warning naming the
    field and its 1-based line. *)
Theorem asType_warns_only_on_fallback {R : Type} (decode : Tree -> option R)
    (node : Node) (name : string) (out : pointer) (defaultValue : option R) :
  returned (asType decode node name out defaultValue) = Ok true ->
  shown (asType decode node name out defaultValue) <> [] ->
  exists d field,
    defaultValue = Some d /\
    subscript node name = Ok (Valid field) /\
    decode field = None /\
    asType decode node name out defaultValue
      = mkAccess (Ok true) (Some d)
          [ShowWarning (UnparsableUsingDefault name (line_of field + 1))].
Proof.
  unfold asType. destruct out; [discriminate | ].
  destruct (nodeExists node name) as [[ | ] | e'] eqn:Hex.
  - destruct (nodeExists_true _ _ Hex) as (l & es & field & _ & _ & Hsub).
    rewrite Hsub. simpl.
    destruct (decode field) eqn:Hdec; simpl; [congruence | ].
    destruct defaultValue as [d | ]; simpl; [ | discriminate].
    intros _ _. exists d, field. auto.
  - destruct defaultValue; simpl; [congruence | ].
    destruct (Mark_line node); discriminate.
  - discriminate.
Qed.


(** *** load, outcome by outcome *)

Lemma load_true_loadable (path : string) (w w' : World U) :
  load path w = (Ok true, w') -> loadable (self w) path.
Proof.
  unfold load. destruct (LoadFile path) as [t | msg l c] eqn:Hl; simpl self.
  - destruct (verifyCompatibility (self w) (Valid t)) as [[[ | ] | e] lines] eqn:Hv;
      try discriminate.
    intros _. exists t. rewrite Hv. auto.
  - discriminate.
Qed.

(** X12. load returns true exactly for the files that parse and whose
    header verifyCompatibility accepts. *)
Theorem load_true_iff_loadable (path : string) (w : World U) :
  fst (load path w) = Ok true <-> loadable (self w) path.
Proof.
  split.
  - destruct (load path w) as [r w'] eqn:Hload. simpl. intros ->.
    exact (load_true_loadable _ _ _ Hload).
  - intros H. destruct (load_loadable path w H) as (t & _ & _ & ->).
    reflexivity.
Qed.

Lemma load_dataset (path : string) (w : World U) :
  dataset (self (snd (load path w))) = dataset (self w) /\
  user (snd (load path w)) = user w.
Proof.
  unfold load. destruct (LoadFile path) as [t | msg l c]; simpl self.
  - destruct (verifyCompatibility (self w) (Valid t)) as [[[ | ] | e] lines];
      split; reflexivity.
  - split; reflexivity.
Qed.

(** X13. Whatever it returns, load leaves the dataset's type, version and
    minimum version and the callback's state as they were, and only
    appends to the history: the call itself, then console lines. *)
Theorem load_frame (path : string) (w : World U) :
  dataset (self (snd (load path w))) = dataset (self w) /\
  user (snd (load path w)) = user w /\
  exists lines,
    history (snd (load path w)) = history w ++ LoadCalled path :: map Shown lines.
Proof.
  destruct (load_dataset path w) as [Hd Hu].
  repeat split; auto. apply load_history.
Qed.

(** X14. load reads neither the current root, nor the history, nor the
    callback's state: in two worlds with the same dataset it returns the
    same, shows the same lines and, when it returns true, installs the
    same root. *)
Theorem load_depends_on_dataset_only (path : string) (w1 w2 : World U) :
  dataset (self w1) = dataset (self w2) ->
  fst (load path w1) = fst (load path w2) /\
  (exists lines,
     history (snd (load path w1)) = history w1 ++ LoadCalled path :: map Shown lines /\
     history (snd (load path w2)) = history w2 ++ LoadCalled path :: map Shown lines) /\
  (fst (load path w1) = Ok true ->
   root (self (snd (load path w1))) = root (self (snd (load path w2)))).
Proof.
  intros Hd. unfold load.
  assert (Ht : type (self w1) = type (self w2))
    by (unfold dataset in Hd; congruence).
  destruct (LoadFile path) as [t | msg l c]; simpl self.
  - rewrite (verifyCompatibility_dataset _ _ (Valid t) Hd).
    destruct (verifyCompatibility (self w2) (Valid t)) as [[[ | ] | e] lines];
      simpl; try rewrite Ht; (split; [reflexivity | split; [ | auto; discriminate]]).
    + exists lines. rewrite <- !app_assoc. split; reflexivity.
    + exists (lines ++ [ShowError (VerifyFailed (type (self w2)) path)]).
      rewrite <- !app_assoc. split; reflexivity.
    + exists lines. rewrite <- !app_assoc. split; reflexivity.
  - simpl. rewrite Ht. split; [reflexivity | split; [ | discriminate]].
    exists [ShowError (ReadFailed (type (self w2)) path);
            ShowError (ReadFailedAt msg l c)].
    rewrite <- !app_assoc. split; reflexivity.
Qed.

(** X15. A load that returns true shows no error: after the call itself
    the history gains nothing, or the single warning that the file's
    version v is outdated, with v from the minimum version up to, but
    excluding, the dataset's version. *)
Theorem load_true_shows_no_error (path : string) (w w' : World U) :
  load path w = (Ok true, w') ->
  history w' = history w ++ [LoadCalled path] \/
  exists v,
    minimumVersion (self w) <= v < version (self w) /\
    history w' = history w ++
      [LoadCalled path;
       Shown (ShowWarning (VersionOutdated v (minimumVersion (self w))))].
Proof.
  unfold load. destruct (LoadFile path) as [t | msg l c]; simpl self;
    [ | discriminate].
  pose proof (verifyCompatibility_cases (self w) (Valid t)) as Hc.
  destruct (verifyCompatibility (self w) (Valid t)) as [r lines] eqn:Hv.
  destruct r as [[ | ] | e]; try discriminate.
  intros H. inversion H. subst w'. simpl.
  inversion Hc as [ | | | | | | | | h ty vt v Hh Hty Hs Hvt Hver Hcv ].
  destruct (checkVersion_verdict (self w) v)
    as [(Hv' & E) | [(Hv' & E) | [(Hv' & E) | (Hv' & Hv'' & E)]]];
    rewrite E in Hcv; inversion Hcv; subst.
  - left. simpl. now rewrite <- app_assoc.
  - right. exists v. split; [exact Hv' | ]. simpl. now rewrite <- app_assoc.
Qed.

(** X16. A load that returns false has said why, and its last line names
    the file: either the file did not parse and the two lines are the
    read failure, with the dataset type and the path, and the parser's
    message, line and column; or the header was refused and the lines are
    those of verifyCompatibility, at least one, followed by the
    verification failure with the dataset type and the path. *)
Theorem load_false_reported (path : string) (w w' : World U) :
  load path w = (Ok false, w') ->
  (exists msg line column,
     LoadFile path = Failed msg line column /\
     history w' = history w ++
       [LoadCalled path;
        Shown (ShowError (ReadFailed (type (self w)) path));
        Shown (ShowError (ReadFailedAt msg line column))]) \/
  (exists t lines,
     LoadFile path = Loaded t /\
     verifyCompatibility (self w) (Valid t) = (Ok false, lines) /\
     lines <> [] /\
     history w' = history w ++
       LoadCalled path ::
       map Shown (lines ++ [ShowError (VerifyFailed (type (self w)) path)])).
Proof.
  unfold load. destruct (LoadFile path) as [t | msg l c]; simpl self.
  - pose proof (verifyCompatibility_cases (self w) (Valid t)) as Hc.
    destruct (verifyCompatibility (self w) (Valid t)) as [r lines] eqn:Hv.
    destruct r as [[ | ] | e]; try discriminate.
    intros H. inversion H. subst w'. right. exists t, lines.
    assert (Hne : lines <> []).
    { inversion Hc as [ | | | | | | | | h ty vt v Hh Hty Hs Hvt Hver Hcv ];
        try discriminate.
      destruct (checkVersion_verdict (self w) v)
        as [(_ & E) | [(_ & E) | [(_ & E) | (_ & _ & E)]]];
        rewrite E in Hcv; inversion Hcv; discriminate. }
    split; [reflexivity | ]. split; [exact Hv | ]. split; [exact Hne | ].
    simpl. now rewrite <- app_assoc.
  - intros H. inversion H. subst w'. left. exists msg, l, c.
    split; [reflexivity | ]. simpl. now rewrite <- app_assoc.
Qed.

(** X17. An exception raised by the header check passes through load:
    the call is recorded, no line at all is shown (not even the
    verification failure), the object is untouched, and the exception is
    BadSubscript or BadConversion. *)
Theorem load_throw_shows_nothing (path : string) (w w' : World U) (e : Exception) :
  load path w = (Throw e, w') ->
  w' = record [LoadCalled path] w /\ (e = BadSubscript \/ e = BadConversion).
Proof.
  unfold load. destruct (LoadFile path) as [t | msg l c]; simpl self;
    [ | discriminate].
  pose proof (verifyCompatibility_cases (self w) (Valid t)) as Hc.
  destruct (verifyCompatibility (self w) (Valid t)) as [r lines] eqn:Hv.
  destruct r as [[ | ] | e']; try discriminate.
  intros H. inversion H. subst.
  inversion Hc as [ | | | | | | | | h ty vt v Hh Hty Hs Hvt Hver Hcv ]; subst;
    try (unfold print, record; simpl; rewrite app_nil_r; auto; fail).
  destruct (checkVersion_verdict (self w) v)
    as [(_ & E) | [(_ & E) | [(_ & E) | (_ & _ & E)]]];
    rewrite E in Hcv; inversion Hcv.
Qed.


(** *** parse, whatever it returns *)

Lemma calls_of_app (h1 h2 : list Event) :
  calls_of (h1 ++ h2) = calls_of h1 ++ calls_of h2.
Proof. apply flat_map_app. Qed.

Lemma calls_of_Shown (lines : list Diag) : calls_of (map Shown lines) = [].
Proof. induction lines; simpl; auto. Qed.

Lemma calls_of_call_events (file : string) (calls : list (Node * bool)) :
  calls_of (call_events file calls) = map (fun c => (fst c, file, snd c)) calls.
Proof.
  induction calls as [ | c calls IH]; simpl; [reflexivity | now rewrite <- IH].
Qed.

Lemma loads_of_load_events (p : string) (lines : list Diag) :
  loads_of (LoadCalled p :: map Shown lines) = [p].
Proof.
  change (loads_of (LoadCalled p :: map Shown lines))
    with (p :: loads_of (map Shown lines)).
  now rewrite loads_of_Shown.
Qed.

Lemma calls_of_load_events (p : string) (lines : list Diag) :
  calls_of (LoadCalled p :: map Shown lines) = [].
Proof.
  change (calls_of (LoadCalled p :: map Shown lines))
    with (calls_of (map Shown lines)).
  apply calls_of_Shown.
Qed.

Lemma filter_IsDefined_calls (calls : list (Node * bool)) (nodes : list Node) :
  map fst calls = filter IsDefined nodes ->
  Forall (fun c => IsDefined (fst c) = true) calls.
Proof.
  intros Hmap. apply Forall_forall. intros c Hin.
  assert (Hn : In (fst c) (filter IsDefined nodes))
    by (rewrite <- Hmap; now apply in_map).
  apply filter_In in Hn. tauto.
Qed.

(** What any run of the loop over [files] keeps true. *)
Lemma parse_files_frame (func : Node -> string -> U -> bool * U)
    (files : list string) :
  forall (w w' : World U) (r : Res bool),
  parse_files func files w = (r, w') ->
  dataset (self w') = dataset (self w) /\
  exists evs k,
    history w' = history w ++ evs /\
    loads_of evs = firstn k (map c_str files) /\
    (files <> [] -> (1 <= k)%nat) /\
    Forall (fun c => IsDefined (fst (fst c)) = true /\ In (snd (fst c)) files)
      (calls_of evs).
Proof.
  induction files as [ | p rest IH]; intros w w' r; simpl.
  - intros H. inversion H. subst. split; [reflexivity | ].
    exists [], 0%nat. rewrite app_nil_r. repeat split; auto. congruence.
  - destruct (load_history (c_str p) w) as (lines & Hh).
    destruct (load_dataset (c_str p) w) as [Hd _].
    destruct (load (c_str p) w) as [[[ | ] | e] w1]; simpl in Hh, Hd.
    + destruct (subscript (getRootNode w1) "Body") as [body | e].
      * destruct (body_loop_spec func p (iterate body) 0 w1)
          as (calls & w2 & Hrun & Hmap & Hself & Hhist).
        rewrite Hrun. intros H. apply IH in H.
        destruct H as (Hd' & evs & k & Hh' & Hl & _ & Hc).
        split.
        { rewrite Hd'. unfold print, record. simpl. now rewrite Hself. }
        exists ((LoadCalled (c_str p) :: map Shown lines) ++ call_events p calls
                ++ [Shown (ShowStatus (DoneReading (0 + accepted calls) (c_str p)))]
                ++ evs), (S k).
        repeat split.
        -- rewrite Hh'. unfold print, record. cbn [history]. rewrite Hhist, Hh.
           simpl. repeat rewrite <- app_assoc. reflexivity.
        -- rewrite !loads_of_app, loads_of_call_events, loads_of_load_events.
           simpl. now rewrite Hl.
        -- intros _. lia.
        -- rewrite !calls_of_app, calls_of_call_events, calls_of_load_events.
           simpl. apply Forall_app. split.
           ++ apply Forall_map. simpl.
              eapply Forall_impl; [ | exact (filter_IsDefined_calls _ _ Hmap)].
              simpl. auto.
           ++ eapply Forall_impl; [ | exact Hc]. simpl. tauto.
      * intros H. inversion H. subst. split; [exact Hd | ].
        exists (LoadCalled (c_str p) :: map Shown lines), 1%nat.
        repeat split; auto.
        -- apply loads_of_load_events.
        -- rewrite calls_of_load_events. constructor.
    + intros H. inversion H. subst. split; [exact Hd | ].
      exists (LoadCalled (c_str p) :: map Shown lines), 1%nat.
      repeat split; auto.
      * apply loads_of_load_events.
      * rewrite calls_of_load_events. constructor.
    + intros H. inversion H. subst. split; [exact Hd | ].
      exists (LoadCalled (c_str p) :: map Shown lines), 1%nat.
      repeat split; auto.
      * apply loads_of_load_events.
      * rewrite calls_of_load_events. constructor.
Qed.

Lemma parse_files_true_loadable (func : Node -> string -> U -> bool * U)
    (files : list string) :
  forall w w' : World U,
  parse_files func files w = (Ok true, w') ->
  Forall (fun p => loadable (self w) (c_str p)) files.
Proof.
  induction files as [ | p rest IH]; intros w w'; simpl; [constructor | ].
  destruct (load_dataset (c_str p) w) as [Hd _].
  destruct (load (c_str p) w) as [[[ | ] | e] w1] eqn:Hload; try discriminate.
  simpl in Hd.
  destruct (subscript (getRootNode w1) "Body") as [body | e]; try discriminate.
  destruct (body_loop_spec func p (iterate body) 0 w1)
    as (calls & w2 & Hrun & _ & Hself & _).
  rewrite Hrun. intros H. apply IH in H. constructor.
  - exact (load_true_loadable _ _ _ Hload).
  - eapply Forall_impl; [ | exact H]. intros q. apply loadable_dataset.
    unfold print, record. simpl. now rewrite Hself.
Qed.

(** X18. parse returns true exactly when, for every resolved path, the
    file at the path's C string parses and has an accepted header; what
    the callback answers plays no part. *)
Theorem parse_true_iff_all_loadable (filename : string)
    (location : e_yamldb_location) (func : Node -> string -> U -> bool * U)
    (w : World U) :
  fst (parse filename location func w) = Ok true <->
  Forall (fun p => loadable (self w) (c_str p)) (getLocations filename location).
Proof.
  unfold parse. split.
  - destruct (parse_files func (getLocations filename location) w)
      as [r w'] eqn:Hp. simpl. intros ->.
    exact (parse_files_true_loadable _ _ _ _ Hp).
  - intros H.
    destruct (parse_files_all_loadable func _ w H) as (runs & w' & -> & _).
    reflexivity.
Qed.

(** X19. When parse returns true, load has been called on the C string of
    every resolved path, once each and in the resolved order, and on
    nothing else. *)
Theorem parse_true_loads_every_path (filename : string)
    (location : e_yamldb_location) (func : Node -> string -> U -> bool * U)
    (w w' : World U) :
  parse filename location func w = (Ok true, w') ->
  loads_of (history w')
    = loads_of (history w) ++ map c_str (getLocations filename location).
Proof.
  unfold parse. apply parse_files_loads.
Qed.

(** X20. Whatever parse returns, and also when an exception leaves it,
    the paths load was called on are an initial part of the C strings of
    the resolved list, in order and without repetition or gap; for a
    listed location the C string of the base path is always among them. *)
Theorem parse_loads_a_prefix (filename : string)
    (location : e_yamldb_location) (func : Node -> string -> U -> bool * U)
    (w w' : World U) (r : Res bool) :
  parse filename location func w = (r, w') ->
  exists k,
    loads_of (history w')
      = loads_of (history w)
        ++ firstn k (map c_str (getLocations filename location)) /\
    (location <> UNLISTED -> (1 <= k)%nat).
Proof.
  unfold parse. intros H.
  destruct (parse_files_frame _ _ _ _ _ H) as (_ & evs & k & Hh & Hl & Hk & _).
  exists k. rewrite Hh, loads_of_app, Hl. split; [reflexivity | ].
  intros Hloc. apply Hk. destruct location; simpl; congruence.
Qed.

(** X21. Whatever parse returns, every call of the entry callback it made
    was on a defined handle and with one of the resolved paths as file. *)
Theorem parse_calls_defined_nodes (filename : string)
    (location : e_yamldb_location) (func : Node -> string -> U -> bool * U)
    (w w' : World U) (r : Res bool) :
  parse filename location func w = (r, w') ->
  exists evs,
    history w' = history w ++ evs /\
    Forall (fun c => IsDefined (fst (fst c)) = true /\
                     In (snd (fst c)) (getLocations filename location))
      (calls_of evs).
Proof.
  unfold parse. intros H.
  destruct (parse_files_frame _ _ _ _ _ H) as (_ & evs & k & Hh & _ & _ & Hc).
  exists evs. auto.
Qed.

(** X22. Whatever parse returns, the dataset's type, version and minimum
    version are what they were: only the root of the object can change. *)
Theorem parse_keeps_dataset (filename : string)
    (location : e_yamldb_location) (func : Node -> string -> U -> bool * U)
    (w w' : World U) (r : Res bool) :
  parse filename location func w = (r, w') ->
  dataset (self w') = dataset (self w).
Proof.
  unfold parse. intros H.
  now destruct (parse_files_frame _ _ _ _ _ H) as (Hd & _).
Qed.

Lemma last_cons_default {A : Type} (l : list A) :
  forall a d1 d2 : A, last (a :: l) d1 = last (a :: l) d2.
Proof.
  induction l as [ | b l IH]; intros a d1 d2; [reflexivity | ].
  change (last (b :: l) d1 = last (b :: l) d2). apply IH.
Qed.

Lemma parse_files_root_last (func : Node -> string -> U -> bool * U)
    (files : list string) :
  forall (w w' : World U) (p : string),
  parse_files func (p :: files) w = (Ok true, w') ->
  exists t, LoadFile (c_str (last files p)) = Loaded t /\ root (self w') = Valid t.
Proof.
  induction files as [ | q rest IH]; intros w w' p H.
  - simpl in H.
    destruct (load (c_str p) w) as [[[ | ] | e] w1] eqn:Hload; try discriminate.
    destruct (load_loadable (c_str p) w (load_true_loadable _ _ _ Hload))
      as (t & Hl & _ & Hw1).
    rewrite Hload in Hw1. inversion Hw1 as [Hw]. rewrite Hw in H.
    unfold getRootNode in H. simpl root in H.
    destruct (subscript (Valid t) "Body") as [body | e]; try discriminate.
    match type of H with
    | context [body_loop func p (iterate body) 0 ?w0] =>
        destruct (body_loop_spec func p (iterate body) 0 w0)
          as (calls & w2 & Hrun & _ & Hself & _)
    end.
    rewrite Hrun in H. inversion H. subst w'. exists t. split; [exact Hl | ].
    unfold print, record. simpl. now rewrite Hself.
  - change (parse_files func (p :: q :: rest) w)
      with (match load (c_str p) w with
            | (Throw e, w) => (Throw e, w)
            | (Ok false, w) => (Ok false, w)
            | (Ok true, w) =>
                match subscript (getRootNode w) "Body" with
                | Throw e => (Throw e, w)
                | Ok body =>
                    let (count, w) := body_loop func p (iterate body) 0 w in
                    parse_files func (q :: rest)
                      (print [ShowStatus (DoneReading count (c_str p))] w)
                end
            end) in H.
    destruct (load (c_str p) w) as [[[ | ] | e] w1]; try discriminate.
    destruct (subscript (getRootNode w1) "Body") as [body | e]; try discriminate.
    destruct (body_loop func p (iterate body) 0 w1) as [count w2].
    apply IH in H. destruct H as (t & Hl & Hroot).
    exists t. split; [ | exact Hroot].
    destruct rest as [ | s rest]; [exact Hl | ].
    change (LoadFile (c_str (last (s :: rest) p)) = Loaded t).
    now rewrite (last_cons_default rest s p q).
Qed.

(** X23. After a parse that returned true, the current root is the
    document found at the C string of the last resolved path, the import
    one: the base document has been replaced and is no longer reachable
    through getRootNode. *)
Theorem parse_root_is_import_document (filename : string)
    (location : e_yamldb_location) (func : Node -> string -> U -> bool * U)
    (w w' : World U) (base import : string) :
  getLocations filename location = [base; import] ->
  parse filename location func w = (Ok true, w') ->
  exists t, LoadFile (c_str import) = Loaded t /\ getRootNode w' = Valid t.
Proof.
  unfold parse. intros -> H.
  exact (parse_files_root_last func [import] w w' base H).
Qed.

(** X24. No rollback.  When the file at the C string of the base path is
    loadable and the one at the C string of the import path does not
    parse (it is missing, say), parse returns false, yet the base file has
    been processed in full before: the callback was called on the defined
    handles of its Body, each flag and the final state being the
    callback's own, and its status line was shown; the read failure of the
    import path comes after them. *)
Theorem parse_import_failure_keeps_base_run (filename : string)
    (location : e_yamldb_location) (func : Node -> string -> U -> bool * U)
    (w : World U) (base import msg : string) (line column : Z) :
  getLocations filename location = [base; import] ->
  loadable (self w) (c_str base) ->
  LoadFile (c_str import) = Failed msg line column ->
  exists run w',
    parse filename location func w = (Ok false, w') /\
    run_file run = base /\
    runs_over_body run /\
    answered func base (user w) (run_calls run) (user w') /\
    history w' = history w ++ run_events (self w) run ++
      [LoadCalled (c_str import);
       Shown (ShowError (ReadFailed (type (self w)) (c_str import)));
       Shown (ShowError (ReadFailedAt msg line column))].
Proof.
  intros Hloc Hbase Hfail. unfold parse. rewrite Hloc.
  destruct (parse_files_all_loadable func [base] w)
    as (runs & w1 & Hp & Hf & Hr & Hthr & Hh).
  { constructor; [exact Hbase | constructor]. }
  destruct runs as [ | run [ | run' runs]]; try discriminate.
  injection Hf as Hf. inversion Hr as [ | ? ? Hrun _]; subst.
  inversion Hthr as [ | ? u' ? ? ? Hans Hnil]; subst.
  inversion Hnil; subst.
  destruct (parse_files_frame _ _ _ _ _ Hp) as (Hd & _).
  assert (Ht : type (self w1) = type (self w))
    by (unfold dataset in Hd; congruence).
  exists run, (print [ShowError (ReadFailed (type (self w1)) (c_str import));
                      ShowError (ReadFailedAt msg line column)]
                 (record [LoadCalled (c_str import)] w1)).
  split; [ | split; [reflexivity | split; [exact Hrun | split; [exact Hans | ]]]].
  - change [run_file run; import] with ([run_file run] ++ [import]).
    rewrite parse_files_app, Hp. simpl. unfold load. rewrite Hfail. reflexivity.
  - unfold print, record. cbn [history]. rewrite Hh, Ht. simpl flat_map.
    rewrite app_nil_r. simpl map. repeat rewrite <- app_assoc. reflexivity.
Qed.

Lemma body_loop_undefined (func : Node -> string -> U -> bool * U) (file : string)
    (nodes : list Node) (count : Z) (w : World U) :
  Forall (fun n => IsDefined n = false) nodes ->
  body_loop func file nodes count w = (count, w).
Proof.
  induction 1 as [ | n nodes Hn _ IH]; simpl; [reflexivity | ].
  now rewrite Hn.
Qed.

Lemma iterate_not_sequence (body : Node) :
  (forall l items, body <> Valid (Sequence l items)) ->
  Forall (fun n => IsDefined n = false) (iterate body).
Proof.
  intros Hns. destruct body as [[l | l s | l items | l entries] | ]; simpl;
    try constructor.
  - now elim (Hns l items).
  - clear Hns. induction entries; simpl; constructor; auto.
Qed.

(** X25. A file, loadable at the C string of its path, whose Body is
    absent, or is anything but a sequence (a map of entries, a scalar,
    null), counts as a file of zero entries: the loop goes on with the next
    file after the status line with count 0, the callback not having been
    called. *)
Theorem parse_files_body_not_sequence (func : Node -> string -> U -> bool * U)
    (p : string) (rest : list string) (w : World U) (t : Tree) (body : Node) :
  LoadFile (c_str p) = Loaded t ->
  fst (verifyCompatibility (self w) (Valid t)) = Ok true ->
  subscript (Valid t) "Body" = Ok body ->
  (forall l items, body <> Valid (Sequence l items)) ->
  parse_files func (p :: rest) w
    = parse_files func rest
        (print [ShowStatus (DoneReading 0 (c_str p))]
           (set_root (Valid t)
              (print (snd (verifyCompatibility (self w) (Valid t)))
                 (record [LoadCalled (c_str p)] w)))).
Proof.
  intros Hl Hv Hbody Hns.
  assert (Hp : loadable (self w) (c_str p)) by (exists t; auto).
  destruct (load_loadable (c_str p) w Hp) as (t' & Hl' & _ & Hload).
  rewrite Hl in Hl'. injection Hl' as <-.
  simpl. rewrite Hload. unfold getRootNode. simpl root. rewrite Hbody.
  rewrite (body_loop_undefined _ _ _ _ _ (iterate_not_sequence _ Hns)).
  reflexivity.
Qed.

(** *** getLocations, the paths compared *)

Lemma append_inj_l (a x y : string) :
  (a ++ x)%string = (a ++ y)%string -> x = y.
Proof.
  induction a as [ | c a IH]; simpl; intros H; [exact H | ].
  injection H as H. auto.
Qed.

Lemma length_append (a b : string) :
  String.length (a ++ b) = (String.length a + String.length b)%nat.
Proof.
  induction a as [ | c a IH]; simpl; [reflexivity | now rewrite IH].
Qed.

Lemma append_same_length (x y a b : string) :
  String.length x = String.length y ->
  (x ++ a)%string = (y ++ b)%string -> x = y /\ a = b.
Proof.
  revert y. induction x as [ | c x IH]; intros [ | d y]; simpl;
    try discriminate; auto.
  intros Hlen H. injection Hlen as Hlen. injection H as -> H.
  destruct (IH _ Hlen H) as [-> ->]. auto.
Qed.

Lemma append_inj_r (x y n : string) :
  (x ++ n)%string = (y ++ n)%string -> x = y.
Proof.
  intros H.
  assert (Hlen : String.length x = String.length y).
  { apply (f_equal String.length) in H. rewrite !length_append in H. lia. }
  now destruct (append_same_length _ _ _ _ Hlen H).
Qed.

(** X26. The base path and the import path never coincide for NORMAL_DB
    and for CONF_DB, whatever the configuration and the file name, so
    parse does not load one file twice there; for SPLIT_DB they coincide
    exactly when DBPATH is DBIMPORT followed by a slash. *)
Theorem getLocations_base_differs_from_import (filename : string) :
  (exists base import,
     getLocations filename NORMAL_DB = [base; import] /\ base <> import) /\
  (exists base import,
     getLocations filename CONF_DB = [base; import] /\ base <> import) /\
  (exists base import,
     getLocations filename SPLIT_DB = [base; import] /\
     (base = import <-> DBPATH = (DBIMPORT ++ "/")%string)).
Proof.
  repeat match goal with |- _ /\ _ => split end;
    simpl; eexists; eexists; (split; [reflexivity | ]).
  - rewrite !append_assoc. intros H. apply append_inj_l in H.
    apply (f_equal String.length) in H. rewrite !length_append in H.
    simpl in H. lia.
  - rewrite !append_assoc. intros H. apply append_inj_l in H.
    apply (f_equal String.length) in H. simpl in H. lia.
  - split.
    + intros H. rewrite !append_assoc in H.
      apply append_inj_l in H. apply (append_inj_l "/") in H.
      rewrite <- append_assoc in H. now apply append_inj_r in H.
    + intros ->. now rewrite !append_assoc.
Qed.

(** X27. The file name can be read back from the resolved paths: for a
    listed location, two names that resolve to the same paths are the same
    name. *)
Theorem getLocations_injective (location : e_yamldb_location)
    (filename1 filename2 : string) :
  location <> UNLISTED ->
  getLocations filename1 location = getLocations filename2 location ->
  filename1 = filename2.
Proof.
  intros Hloc H. destruct location; simpl in H; try congruence;
    injection H as H _; now apply append_inj_l in H.
Qed.

End Database.

(** ** The statements on the sample documents *)

(** The header of the sample document of version 2 is read by the item
    database (version 3, minimum 2): accepted, with the one warning. *)
Lemma verifyCompatibility_version_protocol_witness :
  verifyCompatibility Sample.as_uint16 Sample.as_string Sample.item_db
    (Valid (Sample.document "2"))
  = (Ok true, [ShowWarning (VersionOutdated 2 2)]).
Proof.
  refine (proj1 (proj2
    (verifyCompatibility_version_protocol Sample.as_uint16 Sample.as_string
       Sample.item_db (Valid (Sample.document "2"))
       (Valid (snd (Sample.header "ITEM_DB" "2")))
       (Scalar 1 "ITEM_DB") (Scalar 2 "2") 2
       eq_refl eq_refl eq_refl eq_refl eq_refl)) _);
    simpl; lia.
Defined.

(** C1, counterexample.  In a dataset whose minimum version (5) is
    above its version (3), a file of version 3 is below the minimum and
    yet accepted, silently: the file's version is compared with the
    dataset's version first, and an equal one is never compared with the
    minimum. *)
Lemma verifyCompatibility_accepts_below_minimum :
  Sample.as_uint16 (Scalar 2 "3") = Some 3 /\
  3 < minimumVersion Sample.item_db_minimum_5 /\
  verifyCompatibility Sample.as_uint16 Sample.as_string Sample.item_db_minimum_5
    (Valid (Sample.document "3"))
  = (Ok true, []).
Proof.
  split; [reflexivity | ]. split; [reflexivity | reflexivity].
Qed.

(** item_db.yml has no import file: the base file is processed, the load
    of the import file returns false and so does parse. *)
Lemma parse_fails_fast_witness :
  fst (parse "db" "conf" "import" "re/" Sample.as_uint16 Sample.as_string
         Sample.LoadFile (list Z) "item_db.yml" NORMAL_DB Sample.collect
         Sample.world0) = Ok false /\
  loads_of
    (history
       (snd (parse "db" "conf" "import" "re/" Sample.as_uint16 Sample.as_string
               Sample.LoadFile (list Z) "item_db.yml" NORMAL_DB Sample.collect
               Sample.world0)))
  = ["db/item_db.yml"; "db/import/item_db.yml"].
Proof.
  destruct
    (parse_fails_fast "db" "conf" "import" "re/" Sample.as_uint16
       Sample.as_string Sample.LoadFile (list Z) "item_db.yml" NORMAL_DB
       Sample.collect ["db/item_db.yml"] [] "db/import/item_db.yml"
       Sample.world0
       (snd (parse_files Sample.as_uint16 Sample.as_string Sample.LoadFile
               (list Z) Sample.collect ["db/item_db.yml"] Sample.world0))
       (snd (load Sample.as_uint16 Sample.as_string Sample.LoadFile (list Z)
               "db/import/item_db.yml"
               (snd (parse_files Sample.as_uint16 Sample.as_string
                       Sample.LoadFile (list Z) Sample.collect
                       ["db/item_db.yml"] Sample.world0))))
       eq_refl eq_refl eq_refl) as [Hret Hloads].
  rewrite Hret. split; [reflexivity | exact Hloads].
Defined.

(** C2, counterexample.  For the name item_db.yml NUL .bak the
    resolved paths carry the NUL; load is called on their C strings,
    db/item_db.yml and db/import/item_db.yml, neither of which is a
    resolved path. *)
Lemma parse_loads_truncated_path :
  loads_of
    (history
       (snd (parse "db" "conf" "import" "re/" Sample.as_uint16 Sample.as_string
               Sample.LoadFile (list Z) Sample.nul_name NORMAL_DB Sample.collect
               Sample.world0)))
  = ["db/item_db.yml"; "db/import/item_db.yml"] /\
  ~ In "db/item_db.yml"
       (getLocations "db" "conf" "import" "re/" Sample.nul_name NORMAL_DB) /\
  ~ In "db/import/item_db.yml"
       (getLocations "db" "conf" "import" "re/" Sample.nul_name NORMAL_DB).
Proof.
  split; [reflexivity | ].
  split; intros H; vm_compute in H;
    repeat (destruct H as [H | H]; [discriminate H | ]); exact H.
Qed.



(** The Id of that entry, 501, is not a bool. *)
Lemma asType_unconvertible_field_witness :
  asType Sample.as_bool (Valid (Sample.entry 4 "501")) "Id" target (Some true)
    = mkAccess (Ok true) (Some true) [ShowWarning (UnparsableUsingDefault "Id" 5)] /\
  asType Sample.as_bool (Valid (Sample.entry 4 "501")) "Id" target None
    = mkAccess (Ok false) None [ShowError (Unparsable "Id" 5)].
Proof.
  destruct (asType_unconvertible_field Sample.as_bool
              (Valid (Sample.entry 4 "501")) "Id" (Scalar 4 "501")
              eq_refl eq_refl) as [Hsome Hnone].
  split; [exact (Hsome true) | exact Hnone].
Defined.

(** item_db_usable.yml has both files; the callback refuses one entry of
    the base file and parse returns true all the same. *)
Lemma parse_counts_accepted_entries_witness :
  Forall (fun p => loadable Sample.as_uint16 Sample.as_string Sample.LoadFile
                     (self Sample.world0) (c_str p))
    (getLocations "db" "conf" "import" "re/" "item_db_usable.yml" NORMAL_DB) /\
  fst (parse "db" "conf" "import" "re/" Sample.as_uint16 Sample.as_string
         Sample.LoadFile (list Z) "item_db_usable.yml" NORMAL_DB Sample.collect
         Sample.world0) = Ok true.
Proof.
  assert (Hall : Forall (fun p => loadable Sample.as_uint16 Sample.as_string
                                    Sample.LoadFile (self Sample.world0) (c_str p))
                   (getLocations "db" "conf" "import" "re/"
                      "item_db_usable.yml" NORMAL_DB)).
  { repeat constructor.
    - exists (Sample.document "2"). split; reflexivity.
    - exists Sample.overlay. split; reflexivity. }
  split; [exact Hall | ].
  destruct (parse_counts_accepted_entries "db" "conf" "import" "re/"
              Sample.as_uint16 Sample.as_string Sample.LoadFile (list Z)
              "item_db_usable.yml" NORMAL_DB Sample.collect Sample.world0 Hall)
    as (runs & w' & Hparse & _).
  rewrite Hparse. reflexivity.
Defined.

(** C5, counterexample.  The base file of item_null.yml has a null
    entry ([- ~]) in its Body.  To yaml-cpp a null node is defined, so the
    callback is called on it; here it answers false and parse returns
    true. *)
Lemma parse_calls_callback_on_null_entry :
  IsDefined (Valid (Null 4)) = true /\
  fst (parse "db" "conf" "import" "re/" Sample.as_uint16 Sample.as_string
         Sample.LoadFile_null (list Z) "item_null.yml" NORMAL_DB Sample.collect
         Sample.world0) = Ok true /\
  In (FuncCalled (Valid (Null 4)) "db/item_null.yml" false)
     (history
        (snd (parse "db" "conf" "import" "re/" Sample.as_uint16 Sample.as_string
                Sample.LoadFile_null (list Z) "item_null.yml" NORMAL_DB
                Sample.collect Sample.world0))).
Proof.
  split; [reflexivity | ]. split; [reflexivity | ].
  vm_compute. tauto.
Qed.

(** The import file of item_db.yml does not exist: load returns false and
    the root is the one the object had. *)
Lemma load_replaces_root_only_on_success_witness :
  fst (load Sample.as_uint16 Sample.as_string Sample.LoadFile (list Z)
         "db/import/item_db.yml" Sample.world0) = Ok false /\
  root (self (snd (load Sample.as_uint16 Sample.as_string Sample.LoadFile
                     (list Z) "db/import/item_db.yml" Sample.world0)))
  = root (self Sample.world0).
Proof.
  split; [reflexivity | ].
  exact (proj1 (proj1
    (load_replaces_root_only_on_success Sample.as_uint16 Sample.as_string
       Sample.LoadFile (list Z) "db/import/item_db.yml" Sample.world0
       (snd (load Sample.as_uint16 Sample.as_string Sample.LoadFile (list Z)
               "db/import/item_db.yml" Sample.world0))
       (Ok false) eq_refl) eq_refl)).
Defined.

(** ** The further properties on the sample documents *)

Lemma verifyCompatibility_accepts_only_witness :
  fst (verifyCompatibility Sample.as_uint16 Sample.as_string Sample.item_db
         (Valid (Sample.document "2"))) = Ok true /\
  exists v : uint16,
    2 <= v < 3 /\
    snd (verifyCompatibility Sample.as_uint16 Sample.as_string Sample.item_db
           (Valid (Sample.document "2")))
    = [ShowWarning (VersionOutdated v 2)].
Proof.
  split; [reflexivity | ].
  destruct (verifyCompatibility_accepts_only Sample.as_uint16 Sample.as_string
              Sample.item_db (Valid (Sample.document "2")) eq_refl)
    as (h & ty & vt & v & _ & _ & _ & _ & _ & [[Hv Hs] | [Hv Hs]]).
  - vm_compute in Hs. discriminate Hs.
  - exists v. split; [exact Hv | exact Hs].
Defined.

Lemma verifyCompatibility_refusal_explained_witness :
  fst (verifyCompatibility Sample.as_uint16 Sample.as_string Sample.item_db
         (Valid (Sample.document "1"))) = Ok false /\
  exists before reason,
    snd (verifyCompatibility Sample.as_uint16 Sample.as_string Sample.item_db
           (Valid (Sample.document "1")))
    = before ++ [ShowError reason].
Proof.
  split; [reflexivity | ].
  destruct (verifyCompatibility_refusal_explained Sample.as_uint16
              Sample.as_string Sample.item_db (Valid (Sample.document "1"))
              eq_refl) as (before & reason & Hs & _).
  exists before, reason. exact Hs.
Defined.

Lemma verifyCompatibility_throws_silently_witness :
  fst (verifyCompatibility Sample.as_uint16 Sample.as_string Sample.item_db
         (Valid Sample.scalar_header)) = Throw BadSubscript /\
  snd (verifyCompatibility Sample.as_uint16 Sample.as_string Sample.item_db
         (Valid Sample.scalar_header)) = [].
Proof.
  split; [reflexivity | ].
  exact (proj1 (verifyCompatibility_throws_silently Sample.as_uint16
                  Sample.as_string Sample.item_db (Valid Sample.scalar_header)
                  BadSubscript eq_refl)).
Defined.

(** A monster database read as the item database; its Version is not
    even a number. *)
Lemma verifyCompatibility_type_mismatch_witness :
  verifyCompatibility Sample.as_uint16 Sample.as_string Sample.item_db
    (Valid Sample.mob_document)
  = (Ok false, [ShowError (TypeMismatch "ITEM_DB" "MOB_DB")]).
Proof.
  apply (verifyCompatibility_type_mismatch Sample.as_uint16 Sample.as_string
           Sample.item_db (Valid Sample.mob_document)
           (Valid (Map 1 [(Scalar 1 "Type", Scalar 1 "MOB_DB");
                          (Scalar 2 "Version", Scalar 2 "many")]))
           (Scalar 1 "MOB_DB") "MOB_DB" eq_refl eq_refl eq_refl).
  simpl. discriminate.
Defined.

Lemma verifyCompatibility_invalid_version_witness :
  verifyCompatibility Sample.as_uint16 Sample.as_string Sample.item_db
    (Valid Sample.versionless)
  = (Ok false, [ShowError (MissingNode "Version" 2);
                ShowError (InvalidVersionType "ITEM_DB")]).
Proof.
  exact (proj1 (verifyCompatibility_invalid_version Sample.as_uint16
                  Sample.as_string Sample.item_db (Valid Sample.versionless)
                  (Map 1 [(Scalar 1 "Type", Scalar 1 "ITEM_DB")])
                  (Scalar 1 "ITEM_DB") eq_refl eq_refl eq_refl) eq_refl).
Defined.

Lemma verifyCompatibility_type_not_string_witness :
  verifyCompatibility Sample.as_uint16 Sample.as_string Sample.item_db
    (Valid Sample.listed_type)
  = (Throw BadConversion, []).
Proof.
  exact (verifyCompatibility_type_not_string Sample.as_uint16 Sample.as_string
           Sample.item_db (Valid Sample.listed_type)
           (Valid (Map 1 [(Scalar 1 "Type", Sequence 1 [Scalar 1 "ITEM_DB"]);
                          (Scalar 2 "Version", Scalar 2 "3")]))
           (Sequence 1 [Scalar 1 "ITEM_DB"]) eq_refl eq_refl eq_refl).
Defined.

Lemma asType_true_reads_field_witness :
  asType Sample.as_bool (Valid (Map 0 [(Scalar 0 "Flag", Scalar 0 "true")]))
    "Flag" target (Some false)
  = mkAccess (Ok true) (Some true) [].
Proof.
  destruct (asType_true_reads_field Sample.as_bool
              (Valid (Map 0 [(Scalar 0 "Flag", Scalar 0 "true")]))
              "Flag" target eq_refl) as (field & value & _ & _ & _ & Hd).
  rewrite (Hd false). reflexivity.
Defined.

Lemma asType_exceptions_witness :
  asType Sample.as_bool (Valid (Scalar 0 "5")) "Id" target (Some true)
  = raise BadSubscript.
Proof.
  exact (proj1 (asType_exceptions Sample.as_bool (Valid (Scalar 0 "5")) "Id"
                  target (Some true) BadSubscript eq_refl)).
Defined.

Lemma asType_false_shows_one_line_witness :
  returned (asType Sample.as_bool (Valid (Sample.entry 4 "501")) "Id" target None)
    = Ok false /\
  written (asType Sample.as_bool (Valid (Sample.entry 4 "501")) "Id" target None)
    = None.
Proof.
  split; [reflexivity | ].
  exact (proj1 (asType_false_shows_one_line Sample.as_bool
                  (Valid (Sample.entry 4 "501")) "Id" target None eq_refl)).
Defined.

Lemma asType_warns_only_on_fallback_witness :
  exists field,
    subscript (Valid (Sample.entry 4 "501")) "Id" = Ok (Valid field) /\
    Sample.as_bool field = None.
Proof.
  assert (Hs : shown (asType Sample.as_bool (Valid (Sample.entry 4 "501")) "Id"
                        target (Some true)) <> []).
  { vm_compute. discriminate. }
  destruct (asType_warns_only_on_fallback Sample.as_bool
              (Valid (Sample.entry 4 "501")) "Id" target (Some true)
              eq_refl Hs) as (d & field & _ & Hf & Hd & _).
  exists field. split; [exact Hf | exact Hd].
Defined.

(** Loading the base file gives the same whether or not something else
    was loaded before. *)
Lemma load_depends_on_dataset_only_witness :
  fst (load Sample.as_uint16 Sample.as_string Sample.LoadFile (list Z)
         "db/item_db.yml" Sample.world0)
  = fst (load Sample.as_uint16 Sample.as_string Sample.LoadFile (list Z)
           "db/item_db.yml" Sample.world1).
Proof.
  exact (proj1 (load_depends_on_dataset_only Sample.as_uint16 Sample.as_string
                  Sample.LoadFile (list Z) "db/item_db.yml"
                  Sample.world0 Sample.world1 eq_refl)).
Defined.

Lemma load_true_shows_no_error_witness :
  history (snd (load Sample.as_uint16 Sample.as_string Sample.LoadFile (list Z)
                  "db/item_db_usable.yml" Sample.world0))
    = history Sample.world0 ++ [LoadCalled "db/item_db_usable.yml"] \/
  exists v,
    minimumVersion (self Sample.world0) <= v < version (self Sample.world0) /\
    history (snd (load Sample.as_uint16 Sample.as_string Sample.LoadFile (list Z)
                    "db/item_db_usable.yml" Sample.world0))
    = history Sample.world0 ++
        [LoadCalled "db/item_db_usable.yml";
         Shown (ShowWarning
                  (VersionOutdated v (minimumVersion (self Sample.world0))))].
Proof.
  exact (load_true_shows_no_error Sample.as_uint16 Sample.as_string
           Sample.LoadFile (list Z) "db/item_db_usable.yml" Sample.world0
           (snd (load Sample.as_uint16 Sample.as_string Sample.LoadFile (list Z)
                   "db/item_db_usable.yml" Sample.world0))
           eq_refl).
Defined.

Lemma load_false_reported_witness :
  exists msg line column,
    Sample.LoadFile "db/import/item_db.yml" = Failed msg line column.
Proof.
  destruct (load_false_reported Sample.as_uint16 Sample.as_string
              Sample.LoadFile (list Z) "db/import/item_db.yml" Sample.world0
              (snd (load Sample.as_uint16 Sample.as_string Sample.LoadFile
                      (list Z) "db/import/item_db.yml" Sample.world0))
              eq_refl)
    as [(msg & line & column & Hf & _) | (t & lines & Hl & _)].
  - exists msg, line, column. exact Hf.
  - vm_compute in Hl. discriminate Hl.
Defined.

Lemma load_throw_shows_nothing_witness :
  snd (load Sample.as_uint16 Sample.as_string Sample.LoadFile_scalar (list Z)
         "db/item_scalar.yml" Sample.world0)
  = record [LoadCalled "db/item_scalar.yml"] Sample.world0.
Proof.
  exact (proj1 (load_throw_shows_nothing Sample.as_uint16 Sample.as_string
                  Sample.LoadFile_scalar (list Z) "db/item_scalar.yml"
                  Sample.world0
                  (snd (load Sample.as_uint16 Sample.as_string
                          Sample.LoadFile_scalar (list Z) "db/item_scalar.yml"
                          Sample.world0))
                  BadSubscript eq_refl)).
Defined.

Lemma parse_true_loads_every_path_witness :
  loads_of
    (history
       (snd (parse "db" "conf" "import" "re/" Sample.as_uint16 Sample.as_string
               Sample.LoadFile (list Z) "item_db_usable.yml" NORMAL_DB
               Sample.collect Sample.world0)))
  = ["db/item_db_usable.yml"; "db/import/item_db_usable.yml"].
Proof.
  exact (parse_true_loads_every_path "db" "conf" "import" "re/" Sample.as_uint16
           Sample.as_string Sample.LoadFile (list Z) "item_db_usable.yml"
           NORMAL_DB Sample.collect Sample.world0
           (snd (parse "db" "conf" "import" "re/" Sample.as_uint16
                   Sample.as_string Sample.LoadFile (list Z)
                   "item_db_usable.yml" NORMAL_DB Sample.collect Sample.world0))
           eq_refl).
Defined.

Lemma parse_loads_a_prefix_witness :
  exists k,
    loads_of
      (history
         (snd (parse "db" "conf" "import" "re/" Sample.as_uint16 Sample.as_string
                 Sample.LoadFile (list Z) "item_db.yml" NORMAL_DB
                 Sample.collect Sample.world0)))
    = firstn k ["db/item_db.yml"; "db/import/item_db.yml"] /\
    (1 <= k)%nat.
Proof.
  destruct (parse_loads_a_prefix "db" "conf" "import" "re/" Sample.as_uint16
              Sample.as_string Sample.LoadFile (list Z) "item_db.yml"
              NORMAL_DB Sample.collect Sample.world0
              (snd (parse "db" "conf" "import" "re/" Sample.as_uint16
                      Sample.as_string Sample.LoadFile (list Z)
                      "item_db.yml" NORMAL_DB Sample.collect Sample.world0))
              (Ok false) eq_refl) as (k & Hl & Hk).
  exists k. split; [exact Hl | ]. apply Hk. discriminate.
Defined.

Lemma parse_calls_defined_nodes_witness :
  exists evs,
    history
      (snd (parse "db" "conf" "import" "re/" Sample.as_uint16 Sample.as_string
              Sample.LoadFile (list Z) "item_db.yml" NORMAL_DB
              Sample.collect Sample.world0))
    = history Sample.world0 ++ evs /\
    Forall (fun c => IsDefined (fst (fst c)) = true) (calls_of evs).
Proof.
  destruct (parse_calls_defined_nodes "db" "conf" "import" "re/" Sample.as_uint16
              Sample.as_string Sample.LoadFile (list Z) "item_db.yml"
              NORMAL_DB Sample.collect Sample.world0
              (snd (parse "db" "conf" "import" "re/" Sample.as_uint16
                      Sample.as_string Sample.LoadFile (list Z)
                      "item_db.yml" NORMAL_DB Sample.collect Sample.world0))
              (Ok false) eq_refl) as (evs & Hh & Hc).
  exists evs. split; [exact Hh | ].
  eapply Forall_impl; [ | exact Hc]. intros c [Hd _]. exact Hd.
Defined.

Lemma parse_keeps_dataset_witness :
  dataset
    (self (snd (parse "db" "conf" "import" "re/" Sample.as_uint16
                  Sample.as_string Sample.LoadFile (list Z) "item_db.yml"
                  NORMAL_DB Sample.collect Sample.world0)))
  = ("ITEM_DB", 3, 2).
Proof.
  exact (parse_keeps_dataset "db" "conf" "import" "re/" Sample.as_uint16
           Sample.as_string Sample.LoadFile (list Z) "item_db.yml"
           NORMAL_DB Sample.collect Sample.world0
           (snd (parse "db" "conf" "import" "re/" Sample.as_uint16
                   Sample.as_string Sample.LoadFile (list Z)
                   "item_db.yml" NORMAL_DB Sample.collect Sample.world0))
           (Ok false) eq_refl).
Defined.

Lemma parse_root_is_import_document_witness :
  exists t,
    Sample.LoadFile "db/import/item_db_usable.yml" = Loaded t /\
    getRootNode (list Z)
      (snd (parse "db" "conf" "import" "re/" Sample.as_uint16 Sample.as_string
              Sample.LoadFile (list Z) "item_db_usable.yml" NORMAL_DB
              Sample.collect Sample.world0))
    = Valid t.
Proof.
  exact (parse_root_is_import_document "db" "conf" "import" "re/"
           Sample.as_uint16 Sample.as_string Sample.LoadFile (list Z)
           "item_db_usable.yml" NORMAL_DB Sample.collect Sample.world0
           (snd (parse "db" "conf" "import" "re/" Sample.as_uint16
                   Sample.as_string Sample.LoadFile (list Z)
                   "item_db_usable.yml" NORMAL_DB Sample.collect Sample.world0))
           "db/item_db_usable.yml" "db/import/item_db_usable.yml"
           eq_refl eq_refl).
Defined.

(** item_db.yml again: its three entries are handed to the callback and
    counted before the missing import file makes parse return false. *)
Lemma parse_import_failure_keeps_base_run_witness :
  fst (parse "db" "conf" "import" "re/" Sample.as_uint16 Sample.as_string
         Sample.LoadFile (list Z) "item_db.yml" NORMAL_DB Sample.collect
         Sample.world0) = Ok false /\
  exists run,
    run_file run = "db/item_db.yml" /\
    runs_over_body Sample.LoadFile run.
Proof.
  assert (Hbase : loadable Sample.as_uint16 Sample.as_string Sample.LoadFile
                    (self Sample.world0) (c_str "db/item_db.yml")).
  { exists (Sample.document "3"). split; reflexivity. }
  destruct (parse_import_failure_keeps_base_run "db" "conf" "import" "re/"
              Sample.as_uint16 Sample.as_string Sample.LoadFile (list Z)
              "item_db.yml" NORMAL_DB Sample.collect Sample.world0
              "db/item_db.yml" "db/import/item_db.yml" "bad file" (-1) (-1)
              eq_refl Hbase eq_refl)
    as (run & w' & Hp & Hf & Hr & _ & _).
  split.
  - rewrite Hp. reflexivity.
  - exists run. split; [exact Hf | exact Hr].
Defined.

(** A file whose Body is keyed by id instead of being a list: accepted,
    and not one entry is handed to the callback. *)
Lemma parse_files_body_not_sequence_witness :
  parse_files Sample.as_uint16 Sample.as_string Sample.LoadFile_keyed (list Z)
    Sample.collect ["db/item_keyed.yml"] Sample.world0
  = (Ok true,
     mkWorld (mkYamlDatabase "ITEM_DB" 3 2 (Valid Sample.keyed_body))
       [LoadCalled "db/item_keyed.yml";
        Shown (ShowStatus (DoneReading 0 "db/item_keyed.yml"))]
       []).
Proof.
  rewrite (parse_files_body_not_sequence Sample.as_uint16 Sample.as_string
             Sample.LoadFile_keyed (list Z) Sample.collect
             "db/item_keyed.yml" [] Sample.world0 Sample.keyed_body
             (Valid (Map 4 [(Scalar 4 "501", Sample.entry 4 "501")]))
             eq_refl eq_refl eq_refl).
  - reflexivity.
  - intros l items H. discriminate H.
Defined.

Lemma getLocations_injective_witness :
  getLocations "db" "conf" "import" "re/" "item_db.yml" SPLIT_DB
    = ["db/re/item_db.yml"; "db/import/item_db.yml"] /\
  "item_db.yml" = "item_db.yml".
Proof.
  split; [reflexivity | ].
  apply (getLocations_injective "db" "conf" "import" "re/" SPLIT_DB
           "item_db.yml" "item_db.yml"); [discriminate | reflexivity].
Defined.
